(** * milter: the session side of the Sendmail mail-filter protocol

    A shallow embedding of [session.go] (framing codec, command dispatch,
    session loop) and of the server's panic boundary, with the properties
    of the specification stated over it.

    Conventions of the embedding:
    - a Go [byte] is [Byte.byte]; [[]byte] and [string] are [list byte]
      (a Go string is a byte sequence, and [string(b)] is the identity);
    - [uint32] and [uint16] values are [Z] with the wrap-around written out;
    - a Go function returning [(T, error)] that may also panic returns an
      [outcome T];
    - Go maps are stdpp [gmap]s under an [option], [None] being the nil map;
    - the connection is a record holding the bytes still to arrive and the
      bytes written so far. *)

From Stdlib Require Import ZArith Lia Strings.Byte Strings.String.
From stdpp Require Import base option list countable gmap.

Local Open Scope Z_scope.

(** ** Bytes and Go strings *)

Abbreviation gostring := (list byte) (only parsing).

(** [bs "text"] is the byte sequence of a literal. *)
Definition bs (s : string) : gostring := list_byte_of_string s.

#[global] Instance byte_eq_decision : EqDecision byte := Byte.byte_eq_dec.

#[global] Instance byte_countable : Countable byte :=
  inj_countable Byte.to_N Byte.of_N Byte.of_to_N.

Definition byte_val (b : byte) : Z := Z.of_N (Byte.to_N b).

Definition byte_of_Z (z : Z) : byte :=
  match Byte.of_N (Z.to_N (z mod 256)) with
  | Some b => b
  | None => x00
  end.

(** ** Errors, panics and outcomes *)

Inductive error : Type :=
  | EOF                      (* io.EOF *)
  | ErrUnexpectedEOF         (* io.ErrUnexpectedEOF *)
  | ErrWrite                 (* the error of a failed write on the socket *)
  | ErrCloseSession          (* errors.go *)
  | ErrMacroNoData           (* errors.go *)
  | IndexOutOfRange          (* runtime error: index out of range *)
  | SliceBoundsOutOfRange    (* runtime error: slice bounds out of range *)
  | ErrorsNew (text : gostring)   (* errors.New(text) *)
  | FilterError (text : gostring) (* an error value made by the filter *).

(** The value carried by a panic: an [error] (every runtime fault is one),
    or any other value, kept as the text [fmt.Sprint] gives for it. *)
Inductive panicval : Type :=
  | PanicError (e : error)
  | PanicValue (sprint : gostring).

Inductive outcome (A : Type) : Type :=
  | Ret (a : A)             (* returned (a, nil) *)
  | Fail (e : error)        (* returned (_, e) with e != nil *)
  | Panics (p : panicval).  (* did not return: the goroutine is panicking *)

Arguments Ret {A} a.
Arguments Fail {A} e.
Arguments Panics {A} p.

(** ** Protocol option bits (session.go, the two const blocks) *)

Definition OptAction : Type := Z.
Definition OptProtocol : Type := Z.

Definition OptNone : OptAction := 0x00.
Definition OptAddHeader : OptAction := 0x01.
Definition OptChangeBody : OptAction := 0x02.
Definition OptAddRcpt : OptAction := 0x04.
Definition OptRemoveRcpt : OptAction := 0x08.
Definition OptChangeHeader : OptAction := 0x10.
Definition OptQuarantine : OptAction := 0x20.
Definition OptChangeFrom : OptAction := 0x40.
Definition OptAddRcptPartial : OptAction := 0x80.
Definition OptSetSymList : OptAction := 0x100.

Definition OptNoConnect : OptProtocol := 0x01.
Definition OptNoHelo : OptProtocol := 0x02.
Definition OptNoMailFrom : OptProtocol := 0x04.
Definition OptNoRcptTo : OptProtocol := 0x08.
Definition OptNoBody : OptProtocol := 0x10.
Definition OptNoHeaders : OptProtocol := 0x20.
Definition OptNoEOH : OptProtocol := 0x40.
Definition OptNrHdr : OptProtocol := 0x80.
Definition OptNoUnknown : OptProtocol := 0x100.
Definition OptNoData : OptProtocol := 0x200.
Definition OptSkip : OptProtocol := 0x400.
Definition OptRcptRej : OptProtocol := 0x800.
Definition OptNrConn : OptProtocol := 0x1000.
Definition OptNrHelo : OptProtocol := 0x2000.
Definition OptNrMailFrom : OptProtocol := 0x4000.
Definition OptNrRcptTo : OptProtocol := 0x8000.
Definition OptNrData : OptProtocol := 0x10000.
Definition OptNrUnknown : OptProtocol := 0x20000.
Definition OptNrEOH : OptProtocol := 0x40000.
Definition OptNrBody : OptProtocol := 0x80000.
Definition OptHdrLeadSpace : OptProtocol := 0x100000.
Definition OptMDS256K : OptProtocol := 0x10000000.
Definition OptMDS1M : OptProtocol := 0x20000000.

(** [has_bit B b]: the bit [b] is set in the mask [B]. *)
Definition has_bit (B b : Z) : bool := negb (Z.land B b =? 0).

(** ** Messages and big-endian integers *)

Record Message : Type := mkMessage { Code : byte; Data : list byte }.

Definition wrap32 (z : Z) : Z := z mod 2 ^ 32.

(** binary.Write(w, binary.BigEndian, v) for a uint32 [v]. *)
Definition PutUint32 (v : Z) : list byte :=
  [ byte_of_Z (Z.shiftr v 24); byte_of_Z (Z.shiftr v 16);
    byte_of_Z (Z.shiftr v 8); byte_of_Z v ].

(** binary.BigEndian.Uint32 on a four-byte slice. *)
Definition Uint32 (b : list byte) : Z :=
  match b with
  | [b0; b1; b2; b3] =>
      Z.lor (Z.shiftl (byte_val b0) 24)
        (Z.lor (Z.shiftl (byte_val b1) 16)
           (Z.lor (Z.shiftl (byte_val b2) 8) (byte_val b3)))
  | _ => 0
  end.

(** binary.BigEndian.Uint16 on a slice of at least two bytes. *)
Definition Uint16 (b : list byte) : Z :=
  match b with
  | b0 :: b1 :: _ => Z.lor (Z.shiftl (byte_val b0) 8) (byte_val b1)
  | _ => 0
  end.

(** ** The connection *)

Record Sock : Type := mkSock {
  rd : list byte;      (* bytes the peer sends before it closes its side *)
  wr : list byte;      (* bytes written to the peer so far *)
  wfail : bool;        (* writes on this connection fail *)
  closed : bool        (* Close() has been called *)
}.

Definition set_rd (s : Sock) (i : list byte) : Sock :=
  {| rd := i; wr := wr s; wfail := wfail s; closed := closed s |}.
Definition set_wr (s : Sock) (o : list byte) : Sock :=
  {| rd := rd s; wr := o; wfail := wfail s; closed := closed s |}.
Definition Close (s : Sock) : Sock :=
  {| rd := rd s; wr := wr s; wfail := wfail s; closed := true |}.

(** io.ReadFull(r, buf) with [len(buf) = n]: nothing is read for an empty
    buffer; otherwise io.EOF when no byte arrives and io.ErrUnexpectedEOF
    when the stream ends inside the buffer. *)
Definition ReadFull (n : nat) (s : Sock) : Sock * outcome (list byte) :=
  match n with
  | O => (s, Ret [])
  | S _ =>
      match rd s with
      | [] => (s, Fail EOF)
      | _ :: _ =>
          if decide (n ≤ length (rd s))%nat
          then (set_rd s (drop n (rd s)), Ret (take n (rd s)))
          else (set_rd s [], Fail ErrUnexpectedEOF)
      end
  end.

(** ** Slices and C strings *)

(** The slice expression [s[low:]]: it panics when [low > len(s)]. *)
Definition slice_from (low : nat) (s : list byte) : option (list byte) :=
  if decide (low ≤ length s)%nat then Some (drop low s) else None.

Definition is_nul (b : byte) : bool := Byte.eqb b x00.

(** Modelled from the spec: readCString lives in a file of the repository
    that is not among the sources.  Spec 4.1: a C-string is a byte sequence
    terminated by NUL; reading one yields the bytes before the first NUL
    (all of the data when no NUL occurs). *)
Fixpoint readCString (data : list byte) : gostring :=
  match data with
  | [] => []
  | b :: rest => if is_nul b then [] else b :: readCString rest
  end.

Fixpoint cstrings_from (cur : gostring) (data : list byte) : list gostring :=
  match data with
  | [] => match cur with [] => [] | _ :: _ => [cur] end
  | b :: rest =>
      if is_nul b then cur :: cstrings_from [] rest
      else cstrings_from (cur ++ [b]) rest
  end.

(** Modelled from the spec: decodeCStrings lives in a file of the repository
    that is not among the sources.  Spec 4.1: a C-string list is the
    concatenation of C-strings until the end of the payload; every NUL ends
    one string, and bytes left after the last NUL form a last string. *)
Definition decodeCStrings (data : list byte) : list gostring :=
  cstrings_from [] data.

(** Modelled from the spec: the constant [null] is declared in a file of the
    repository that is not among the sources.  Spec 4.1 and 6: strings are
    terminated by NUL (0x00). *)
Definition null : gostring := [x00].

(** strings.TrimSuffix(s, suffix) *)
Definition TrimSuffix (s suffix : gostring) : gostring :=
  let n := (length s - length suffix)%nat in
  if decide (length suffix ≤ length s)%nat
  then if decide (drop n s = suffix) then take n s else s
  else s.

Definition in_cutset (cut : list byte) (b : byte) : bool :=
  existsb (Byte.eqb b) cut.

Fixpoint TrimLeft (cut : list byte) (s : gostring) : gostring :=
  match s with
  | [] => []
  | b :: rest => if in_cutset cut b then TrimLeft cut rest else s
  end.

(** strings.Trim(s, cutset), for a cutset of single-byte characters. *)
Definition Trim (s : gostring) (cut : list byte) : gostring :=
  reverse (TrimLeft cut (reverse (TrimLeft cut s))).

(** ** Responses *)

(** Modelled from the spec: the Response type, RespContinue, RespTempFail
    and NewResponse are used by session.go but declared in a file that is
    not among the sources.  Spec 3: a response is a verdict that maps to a
    single response packet; spec 8 gives [c] for Continue and [a] for
    Accept, and [t] is the protocol's letter for Tempfail.  A response is
    either a bare code or a code with a payload. *)
Inductive Response : Type :=
  | SimpleResponse (code : byte)
  | CustomResponse (code : byte) (data : list byte).

Definition NewResponse (code : byte) (data : list byte) : Response :=
  CustomResponse code data.

Definition RespContinue : Response := SimpleResponse "c".
Definition RespAccept : Response := SimpleResponse "a".
Definition RespTempFail : Response := SimpleResponse "t".

(** resp.Response(): the packet of a response. *)
Definition Response_Message (r : Response) : Message :=
  match r with
  | SimpleResponse c => {| Code := c; Data := [] |}
  | CustomResponse c d => {| Code := c; Data := d |}
  end.

(** ** Header and macro maps *)

Abbreviation MIMEHeader := (gmap (list byte) (list (list byte))) (only parsing).
Abbreviation MacroMap := (gmap (list byte) (list byte)) (only parsing).

(** Modelled from the spec: the Modifier handed to every callback is
    declared in a file that is not among the sources.  It carries the
    session's macro and header maps as they are at the call.  Its methods
    (spec 4.4: AddRecipient, DeleteRecipient, ReplaceBody, AddHeader,
    ChangeHeader, InsertHeader, ChangeFrom, Quarantine, Progress) each send
    packets to the MTA through the session's WritePacket while the callback
    runs; the use a callback makes of them is given by the packets it
    sends, in order, which a callback returns beside its result. *)
Record Modifier : Type := mkModifier {
  Macros : option MacroMap;
  Headers_of : option MIMEHeader
}.

(** ** What the session takes from the Go libraries *)

Class GoRuntime : Type := {
  (* net/textproto: the canonical form of a header name *)
  CanonicalMIMEHeaderKey : gostring → gostring;
  (* net.ParseIP; the nil address is [] *)
  ParseIP : gostring → list byte;
  (* strings.ToLower *)
  ToLower : gostring → gostring;
  (* the process-wide random source: what the k-th call of rand.Intn(n)
     returns *)
  Intn : nat → nat → nat
}.

(** ** The filter interface *)

(** The method set session.go calls on [m.milter].  [F] is the state of the
    filter object.  Init and Disconnect get no Modifier; every other
    callback gets one and gives back the filter object, the packets it
    sent through the Modifier while it ran, and its result.  A callback
    reads the maps it is handed; a filter that would write into the
    session's maps through them is outside this model. *)
Class Milter (F : Type) : Type := {
  Init : gostring → gostring → F → F * option panicval;
  Disconnect : F → F * option panicval;
  Connect : gostring → gostring → Z → list byte → Modifier → F →
            F * list Message * outcome (option Response);
  Helo : gostring → Modifier → F →
         F * list Message * outcome (option Response);
  MailFrom : gostring → Modifier → F →
             F * list Message * outcome (option Response);
  RcptTo : gostring → Modifier → F →
           F * list Message * outcome (option Response);
  Header : gostring → gostring → Modifier → F →
           F * list Message * outcome (option Response);
  Headers : option MIMEHeader → Modifier → F →
            F * list Message * outcome (option Response);
  BodyChunk : list byte → Modifier → F →
              F * list Message * outcome (option Response);
  Body : Modifier → F → F * list Message * outcome (option Response)
}.

(** ** The session *)

Inductive logline : Type :=
  | LogReadError (e : error)       (* "Error reading milter command: %v" *)
  | LogProcessError (e : error)    (* "Error performing milter command: %v" *)
  | LogWriteError (e : error)      (* "Error writing packet: %v" *)
  | LogUnrecognized (code : byte)  (* "Unrecognized command code: %c" *).

Record milterSession (F : Type) : Type := mkSession {
  actions : OptAction;
  protocol : OptProtocol;
  sock : Sock;
  headers : option MIMEHeader;
  macros : option MacroMap;
  milter : F;
  sessionID : gostring;
  mailID : gostring;
  logger : list logline;   (* what has been printed to the logger *)
  draws : nat              (* ghost: calls of rand.Intn made so far *)
}.

Arguments mkSession {F}.
Arguments actions {F}.
Arguments protocol {F}.
Arguments sock {F}.
Arguments headers {F}.
Arguments macros {F}.
Arguments milter {F}.
Arguments sessionID {F}.
Arguments mailID {F}.
Arguments logger {F}.
Arguments draws {F}.

Section Session.
Context {F : Type} {RT : GoRuntime} {FI : Milter F}.

Definition set_sock (m : milterSession F) (s : Sock) : milterSession F :=
  mkSession (actions m) (protocol m) s (headers m) (macros m) (milter m)
    (sessionID m) (mailID m) (logger m) (draws m).
Definition set_protocol (m : milterSession F) (B : OptProtocol) : milterSession F :=
  mkSession (actions m) B (sock m) (headers m) (macros m) (milter m)
    (sessionID m) (mailID m) (logger m) (draws m).
Definition set_headers (m : milterSession F) (h : option MIMEHeader) : milterSession F :=
  mkSession (actions m) (protocol m) (sock m) h (macros m) (milter m)
    (sessionID m) (mailID m) (logger m) (draws m).
Definition set_macros (m : milterSession F) (k : option MacroMap) : milterSession F :=
  mkSession (actions m) (protocol m) (sock m) (headers m) k (milter m)
    (sessionID m) (mailID m) (logger m) (draws m).
Definition set_milter (m : milterSession F) (f : F) : milterSession F :=
  mkSession (actions m) (protocol m) (sock m) (headers m) (macros m) f
    (sessionID m) (mailID m) (logger m) (draws m).
Definition set_sessionID (m : milterSession F) (id : gostring) (n : nat) : milterSession F :=
  mkSession (actions m) (protocol m) (sock m) (headers m) (macros m) (milter m)
    id (mailID m) (logger m) n.
Definition set_mailID (m : milterSession F) (id : gostring) (n : nat) : milterSession F :=
  mkSession (actions m) (protocol m) (sock m) (headers m) (macros m) (milter m)
    (sessionID m) id (logger m) n.
Definition Printf (m : milterSession F) (l : logline) : milterSession F :=
  mkSession (actions m) (protocol m) (sock m) (headers m) (macros m) (milter m)
    (sessionID m) (mailID m) (logger m ++ [l]) (draws m).

(** *** genRandomID *)

Definition letters : list byte := bs "bcdfghjklmnpqrstvwxyzBCDFGHJKLMNPQRSTVWXYZ".

(** [genRandomID(length)] when [k] calls of rand.Intn were made before.
    rand.Intn(n) lies in [0, n); the remainder keeps any [Intn] there. *)
Definition genRandomID (k : nat) (length : nat) : gostring :=
  map (λ i, default x00
              (letters !! (Intn (k + i) (List.length letters)
                           `mod` List.length letters)%nat))
      (seq 0 length).

(** *** ReadPacket *)

Definition ReadPacket (c : milterSession F) : milterSession F * outcome Message :=
  (* read packet length *)
  match ReadFull 4 (sock c) with
  | (s1, Ret hdr) =>
      let length := Uint32 hdr in
      (* read packet data *)
      match ReadFull (Z.to_nat length) s1 with
      | (s2, Ret data) =>
          match data with
          | [] => (set_sock c s2, Panics (PanicError IndexOutOfRange))   (* data[0] *)
          | code :: payload =>
              (set_sock c s2, Ret {| Code := code; Data := payload |})
          end
      | (s2, Fail e) => (set_sock c s2, Fail e)
      | (s2, Panics p) => (set_sock c s2, Panics p)
      end
  | (s1, Fail e) => (set_sock c s1, Fail e)
  | (s1, Panics p) => (set_sock c s1, Panics p)
  end.

(** *** WritePacket *)

(** The bytes WritePacket hands to the buffered writer. *)
Definition packet_bytes (msg : Message) : list byte :=
  let length := wrap32 (Z.of_nat (List.length (Data msg)) + 1) in
  PutUint32 length ++ Code msg :: Data msg.

(** The three writes go to the buffer and only the flush reaches the
    socket.  A connection here either takes every write ([wfail] false) or
    refuses every write; one that breaks between two packets, or inside
    one so that part of a packet stays on the wire, is not described, and
    what is said of the bytes written is said for [wfail] false. *)
Definition WritePacket (m : milterSession F) (msg : Message)
  : milterSession F * option error :=
  if wfail (sock m) then (m, Some ErrWrite)
  else (set_sock m (set_wr (sock m) (wr (sock m) ++ packet_bytes msg)), None).

(** *** Process *)

Definition newModifier (m : milterSession F) : Modifier :=
  {| Macros := macros m; Headers_of := headers m |}.

(** The packets a callback sends through the Modifier: each goes through
    WritePacket; its error goes to the filter, not to the session. *)
Definition through_modifier (m : milterSession F) (pkts : list Message)
  : milterSession F :=
  foldl (λ m msg, fst (WritePacket m msg)) m pkts.

(** The result of a callback, with the filter object updated and the
    packets it sent through the Modifier written. *)
Definition callback (m : milterSession F)
    (r : F * list Message * outcome (option Response))
  : milterSession F * outcome (option Response) :=
  (through_modifier (set_milter m (fst (fst r))) (snd (fst r)), snd r).

(** MIMEHeader.Add(key, value) *)
Definition MIMEHeader_Add (h : MIMEHeader) (key value : gostring) : MIMEHeader :=
  let k := CanonicalMIMEHeaderKey key in
  <[k := default [] (h !! k) ++ [value]]> h.

(** The loop of case 'D':
    [for i := 0; i < len(data); i += 2 { m.macros[data[i]] = data[i+1] }].
    The second component is the panic of [data[i+1]] past the end. *)
Fixpoint store_macros (data : list gostring) (mac : MacroMap)
  : MacroMap * option panicval :=
  match data with
  | [] => (mac, None)
  | [_] => (mac, Some (PanicError IndexOutOfRange))
  | k :: v :: rest => store_macros rest (<[k := v]> mac)
  end.

(** The composite literal [family] of case 'C', indexed. *)
Definition family (b : byte) : gostring :=
  match b with
  | "U" => bs "unknown"
  | "L" => bs "unix"
  | "4" => bs "tcp4"
  | "6" => bs "tcp6"
  | _ => []
  end%byte.

Definition Process (m : milterSession F) (msg : Message)
  : milterSession F * outcome (option Response) :=
  match Code msg with
  | "A" =>
      (* abort current message and start over *)
      let m := set_macros (set_headers m None) None in
      match Init (sessionID m) (mailID m) (milter m) with
      | (f, Some p) => (set_milter m f, Panics p)
      | (f, None) => (set_milter m f, Ret None)
      end
  | "B" =>
      callback m (BodyChunk (Data msg) (newModifier m) (milter m))
  | "C" =>
      let Hostname := readCString (Data msg) in
      match slice_from (List.length Hostname + 1) (Data msg) with
      | None => (m, Panics (PanicError SliceBoundsOutOfRange))
      | Some [] => (m, Panics (PanicError IndexOutOfRange))   (* msg.Data[0] *)
      | Some (protocolFamily :: data) =>
          if Byte.eqb protocolFamily "4" || Byte.eqb protocolFamily "6" then
            if decide (List.length data < 2)%nat then (m, Ret (Some RespTempFail))
            else
              let Port := Uint16 data in
              let Address := readCString (drop 2 data) in
              callback m (Connect Hostname (family protocolFamily) Port
                            (ParseIP Address) (newModifier m) (milter m))
          else
            let Address := readCString data in
            callback m (Connect Hostname (family protocolFamily) 0
                          (ParseIP Address) (newModifier m) (milter m))
      end
  | "D" =>
      (* define macros *)
      let m := set_macros m (Some ∅) in
      match slice_from 1 (Data msg) with
      | None => (m, Panics (PanicError SliceBoundsOutOfRange))   (* msg.Data[1:] *)
      | Some rest =>
          let data := decodeCStrings rest in
          match store_macros data ∅ with
          | (mac, Some p) => (set_macros m (Some mac), Panics p)
          | (mac, None) => (set_macros m (Some mac), Ret None)
          end
      end
  | "E" =>
      callback m (Body (newModifier m) (milter m))
  | "H" =>
      let name := TrimSuffix (Data msg) null in
      callback m (Helo name (newModifier m) (milter m))
  | "L" =>
      (* make sure headers is initialized *)
      let m := match headers m with
               | None => set_headers m (Some ∅)
               | Some _ => m
               end in
      match decodeCStrings (Data msg) with
      | [name; value] =>
          let m := set_headers m
                     (Some (MIMEHeader_Add (default ∅ (headers m)) name value)) in
          callback m (Header name value (newModifier m) (milter m))
      | _ => (m, Ret (Some RespContinue))
      end
  | "M" =>
      let m := set_mailID m (genRandomID (draws m) 12) (draws m + 12) in
      match Init (sessionID m) (mailID m) (milter m) with
      | (f, Some p) => (set_milter m f, Panics p)
      | (f, None) =>
          let m := set_milter m f in
          let envfrom := readCString (Data msg) in
          callback m (MailFrom (ToLower (Trim envfrom (bs "<>")))
                        (newModifier m) (milter m))
      end
  | "N" =>
      callback m (Headers (headers m) (newModifier m) (milter m))
  | "O" =>
      (* ignore request and prepare response buffer *)
      (m, Ret (Some (NewResponse "O"
                       (PutUint32 2 ++ PutUint32 (actions m)
                          ++ PutUint32 (protocol m)))))
  | "Q" =>
      (m, Fail ErrCloseSession)
  | "R" =>
      let envto := readCString (Data msg) in
      callback m (RcptTo (ToLower (Trim envto (bs "<>")))
                    (newModifier m) (milter m))
  | "T" =>
      (m, Ret (Some RespContinue))
  | c =>
      (Printf m (LogUnrecognized c), Fail ErrCloseSession)
  end%byte.

(** *** HandleMilterCommands *)

(** The [for] loop of HandleMilterCommands.  It ends with the session as
    it is left and, when the goroutine is panicking, the panic value.
    [fuel] bounds the number of packets read; [serve_total] shows that
    one more than the number of bytes still to arrive is always enough. *)
Fixpoint serve (fuel : nat) (m : milterSession F)
  : option (milterSession F * option panicval) :=
  match fuel with
  | O => None
  | S fuel' =>
      match ReadPacket m with
      | (m1, Fail e) =>
          Some (match e with
                | EOF => m1
                | _ => Printf m1 (LogReadError e)
                end, None)
      | (m1, Panics p) => Some (m1, Some p)
      | (m1, Ret msg) =>
          (* process command *)
          match Process m1 msg with
          | (m2, Fail e) =>
              Some (match e with
                    | ErrCloseSession => m2
                    | _ => Printf m2 (LogProcessError e)
                    end, None)
          | (m2, Panics p) => Some (m2, Some p)
          | (m2, Ret None) => serve fuel' m2   (* ignore empty responses *)
          | (m2, Ret (Some resp)) =>
              (* send back response message *)
              match WritePacket m2 (Response_Message resp) with
              | (m3, Some e) => Some (Printf m3 (LogWriteError e), None)
              | (m3, None) => serve fuel' m3
              end
          end
      end
  end.

(** The two deferred calls, run on the way out whether the function
    returns or panics: first [m.milter.Disconnect()], then
    [m.sock.Close()].  A panic of Disconnect replaces the one in flight. *)
Definition deferred (r : milterSession F * option panicval)
  : milterSession F * option panicval :=
  let '(m, p) := r in
  let '(f, pd) := Disconnect (milter m) in
  let m := set_milter m f in
  (set_sock m (Close (sock m)),
   match pd with Some q => Some q | None => p end).

Definition HandleMilterCommands (m : milterSession F)
  : option (milterSession F * option panicval) :=
  let m := set_sessionID m (genRandomID (draws m) 12) (draws m + 12) in
  (* Call Init() for a new Session first *)
  match Init (sessionID m) (mailID m) (milter m) with
  | (f, Some p) => Some (deferred (set_milter m f, Some p))
  | (f, None) =>
      deferred <$> serve (S (List.length (rd (sock m)))) (set_milter m f)
  end.

End Session.

(** ** The server's panic boundary *)

(** The type switch of handlePanic on the recovered value: an error is
    passed on as it is, anything else becomes [errors.New(fmt.Sprint(r))]. *)
Definition normalized (v : panicval) : error :=
  match v with
  | PanicError e => e
  | PanicValue text => ErrorsNew text
  end.

Section Server.
Context {F W : Type} {RT : GoRuntime} {FI : Milter F}.

(** A fault handler is a [func(error)]; [W] is whatever it acts on. *)
Definition handler : Type := error → W → W.

(** [handlePanic(handlers)], deferred in the goroutine of a connection.
    [r] is the panic in flight, if any; the result is the effect of the
    handlers and the panic that is still in flight afterwards.  A nil
    slice of handlers is [None]; [Some []] is an empty non-nil slice. *)
Definition handlePanic (handlers : option (list handler))
    (r : option panicval) (w : W) : W * option panicval :=
  match handlers with
  | None => (w, r)                       (* handlers == nil: no recover *)
  | Some hs =>
      match r with                       (* r := recover() *)
      | None => (w, None)
      | Some v =>
          let err := normalized v in
          (foldl (λ w f, f err w) w hs, None)
      end
  end.

(** What the call [s.MilterFactory()] for a connection gives: the filter
    with the masks it asks for, or a panic of the factory. *)
Inductive made : Type :=
  | Made (f : F) (a : OptAction) (p : OptProtocol)
  | FactoryPanics (v : panicval).

Record Server : Type := mkServer {
  MilterFactory : made;
  ErrHandlers : option (list handler);
  Logger : list logline
}.

(** The session handleCon builds for an accepted connection; [k] is the
    number of rand.Intn calls made in the process so far. *)
Definition new_session (s : Server) (f : F) (a : OptAction) (p : OptProtocol)
    (conn : Sock) (k : nat) : milterSession F :=
  {| actions := a; protocol := p; sock := conn; headers := None;
     macros := None; milter := f; sessionID := []; mailID := [];
     logger := Logger s; draws := k |}.

(** What handleCon leaves behind: the session it ran, or, when the factory
    panicked before there was one, the connection as it was accepted. *)
Inductive handled : Type :=
  | Ran (m : milterSession F)
  | NotStarted (conn : Sock).

(** The connection when handleCon is over. *)
Definition connection_of (h : handled) : Sock :=
  match h with
  | Ran m => sock m
  | NotStarted conn => conn
  end.

Definition handleCon (s : Server) (conn : Sock) (k : nat)
  : option (handled * option panicval) :=
  (* create milter object *)
  match MilterFactory s with
  | FactoryPanics v => Some (NotStarted conn, Some v)
  | Made f a p =>
      (* handle connection commands *)
      (λ '(m, q), (Ran m, q)) <$> HandleMilterCommands (new_session s f a p conn k)
  end.

(** How the goroutine of a connection ends: it returns, or its panic
    reaches the top of the goroutine and the process dies. *)
Inductive goroutine_end : Type :=
  | Returned
  | Crashed (p : panicval).

(** The goroutine RunServer starts for a connection:
    [defer handlePanic(s.ErrHandlers); defer s.Done(); s.handleCon(conn)]. *)
Definition connection_goroutine (s : Server) (conn : Sock) (k : nat) (w : W)
  : option (handled * W * goroutine_end) :=
  '(h, p) ← handleCon s conn k;
  let '(w', p') := handlePanic (ErrHandlers s) p w in
  Some (h, w', match p' with None => Returned | Some v => Crashed v end).

End Server.

(** ** The accept loop *)

(** What one call of [s.Listener.Accept()] returns: the connection and the
    error, nil being [None]. *)
Definition accept_result : Type := option Sock * option error.

(** The [for] loop of Server.RunServer over the results of the successive
    calls of Accept.  A connection that is kept is counted in the wait
    group and handed to a goroutine of its own; the loop yields the
    connections handed out, in order, and the error RunServer returns.  The
    results end where the listener is closed and Accept returns no
    connection. *)
Fixpoint accept_loop (results : list accept_result) : list Sock * option error :=
  match results with
  | [] => ([], None)
  | (None, _) :: _ => ([], None)                 (* conn == nil: return nil *)
  | (Some _, Some err) :: _ => ([], Some err)     (* err != nil: return err *)
  | (Some c, None) :: rest =>
      let '(conns, r) := accept_loop rest in (c :: conns, r)
  end.

Definition no_listen_addr : error := ErrorsNew (bs "no listen addr specified").

(** Server.RunServer; [listener] is the Listener field of the server, given
    by what its Accept returns call after call, nil being [None]. *)
Definition RunServer (listener : option (list accept_result))
  : list Sock * option error :=
  match listener with
  | None => ([], Some no_listen_addr)
  | Some results => accept_loop results
  end.

(** ** A runtime and a filter for the examples *)

(** Stands for the Go library on the inputs of the examples below: their
    header names are canonical already and their addresses are lower case;
    an address is kept as its text; every random draw is 0. *)
Definition example_runtime : GoRuntime :=
  {| CanonicalMIMEHeaderKey := id; ParseIP := id; ToLower := id;
     Intn := λ _ _, 0%nat |}.

(** The calls a filter receives, with their arguments. *)
Inductive call : Type :=
  | CallInit (sessionID mailID : gostring)
  | CallDisconnect
  | CallConnect (host family : gostring) (port : Z) (ip : list byte)
  | CallHelo (name : gostring)
  | CallMailFrom (from : gostring)
  | CallRcptTo (rcpt : gostring)
  | CallHeader (name value : gostring)
  | CallHeaders (h : option MIMEHeader)
  | CallBodyChunk (chunk : list byte)
  | CallBody.

(** A filter that records the calls it receives and answers every event
    with what [verdict] says; Init and Disconnect panic when [verdict]
    does.  It sends nothing through the Modifier. *)
Definition scripted (verdict : call → outcome (option Response))
  : Milter (list call) :=
  let answer (c : call) (f : list call) :=
    (f ++ [c], @nil Message, verdict c) in
  let notify (c : call) (f : list call) :=
    (f ++ [c], match verdict c with Panics p => Some p | _ => None end) in
  {| Init sid mid := notify (CallInit sid mid);
     Disconnect := notify CallDisconnect;
     Connect host fam port ip _ := answer (CallConnect host fam port ip);
     Helo name _ := answer (CallHelo name);
     MailFrom a _ := answer (CallMailFrom a);
     RcptTo a _ := answer (CallRcptTo a);
     Header n v _ := answer (CallHeader n v);
     Headers h _ := answer (CallHeaders h);
     BodyChunk d _ := answer (CallBodyChunk d);
     Body _ := answer CallBody |}.

(** The filter that answers Continue to everything. *)
Definition always_continue : Milter (list call) :=
  scripted (λ _, Ret (Some RespContinue)).

(** A connection on which [input] arrives and then the peer closes. *)
Definition conn (input : list byte) : Sock :=
  {| rd := input; wr := []; wfail := false; closed := false |}.

(** A session as handleCon builds it, for the protocol mask [B]. *)
Definition fresh (B : OptProtocol) (input : list byte) : milterSession (list call) :=
  {| actions := OptNone; protocol := B; sock := conn input; headers := None;
     macros := None; milter := []; sessionID := []; mailID := [];
     logger := []; draws := 0%nat |}.

(** The wire form of a command. *)
Definition packet (code : byte) (payload : list byte) : list byte :=
  packet_bytes {| Code := code; Data := payload |}.

(** ** Vocabulary of the statements *)

Section Vocabulary.
Context {F : Type}.
Implicit Types (m r w : milterSession F).

(** The session [r] with [input] as the bytes still to arrive. *)
Definition feed r (input : list byte) : milterSession F :=
  set_sock r (set_rd (sock r) input).

(** The bytes put on the wire between the states [w] and [w']. *)
Definition sent w w' : list byte :=
  drop (length (wr (sock w))) (wr (sock w')).

(** The session after the loop has dealt with the response [o] of a
    command: a response is written as one packet, nil is skipped. *)
Definition reply m (o : option Response) : milterSession F :=
  match o with
  | Some resp =>
      set_sock m (set_wr (sock m)
                    (wr (sock m) ++ packet_bytes (Response_Message resp)))
  | None => m
  end.

End Vocabulary.

(** The bytes that packets sent through the Modifier put on the wire:
    none when writes on the connection fail. *)
Definition modifier_bytes (failing : bool) (pkts : list Message) : list byte :=
  if failing then [] else concat (map packet_bytes pkts).

(** The command codes Process has a case for. *)
Definition command_table : list byte :=
  ["A"; "B"; "C"; "D"; "E"; "H"; "L"; "M"; "N"; "O"; "Q"; "R"; "T"]%byte.

(** A payload of 2^32 - 1 bytes (never built: only its length is used). *)
Definition huge_payload : list byte := repeat x00 (Z.to_nat (2 ^ 32 - 1)).

Definition huge_message : Message := {| Code := "c"; Data := huge_payload |}.

(** A 'C' payload: host "localhost", family '4', port 25, address
    "127.0.0.1". *)
Definition connect_payload : list byte :=
  bs "localhost" ++ [x00] ++ bs "4" ++ [x00; x19] ++ bs "127.0.0.1" ++ [x00].

(** The session ID every example session gets from [example_runtime]. *)
Definition example_id : gostring := bs "bbbbbbbbbbbb".

(** What a run of HandleMilterCommands leaves to be seen from outside: the
    calls the filter received, the bytes written, whether the connection
    was closed, the log, and the panic in flight. *)
Definition observe (r : option (milterSession (list call) * option panicval))
  : option (list call * list byte * bool * list logline * option panicval) :=
  (λ '(m, p), (milter m, wr (sock m), closed (sock m), logger m, p)) <$> r.

(** The entries of a header map (nil has none). *)
Definition entries (h : option MIMEHeader) : list (gostring * list gostring) :=
  map_to_list (default ∅ h).

(** The entries of the header maps handed to the Headers callback, call by
    call. *)
Definition headers_seen (trace : list call)
  : list (list (gostring * list gostring)) :=
  omap (λ c, match c with CallHeaders h => Some (entries h) | _ => None end)
       trace.

(** A filter whose Helo callback panics with a non-error value. *)
Definition helo_panics : Milter (list call) :=
  scripted (λ c, match c with
                 | CallHelo _ => Panics (PanicValue (bs "boom"))
                 | _ => Ret (Some RespContinue)
                 end).

(** ** Vocabulary of the further properties *)

Section Streams.
Context {F : Type}.
Implicit Types (m r w : milterSession F).

(** [n] calls of ReadPacket in a row, as long as each yields a message. *)
Fixpoint read_packets (n : nat) r : milterSession F * list Message :=
  match n with
  | O => (r, [])
  | S n' =>
      match ReadPacket r with
      | (r1, Ret msg) =>
          let '(r2, msgs) := read_packets n' r1 in (r2, msg :: msgs)
      | (r1, _) => (r1, [])
      end
  end.

(** WritePacket for each message in turn, as long as each succeeds. *)
Fixpoint write_packets (msgs : list Message) w : milterSession F * option error :=
  match msgs with
  | [] => (w, None)
  | msg :: rest =>
      match WritePacket w msg with
      | (w1, None) => write_packets rest w1
      | (w1, Some e) => (w1, Some e)
      end
  end.

End Streams.

(** A message whose length fits the 32-bit length prefix. *)
Definition fits_prefix (msg : Message) : Prop :=
  Z.of_nat (length (Data msg)) + 1 < 2 ^ 32.

(** The decoded strings of a list of key/value pairs. *)
Definition flat_pairs (ps : list (gostring * gostring)) : list gostring :=
  concat (map (λ p, [fst p; snd p]) ps).

Definition vowels : list byte := bs "aeiouAEIOU".

(** An Accept that yields a connection and no error. *)
Definition clean_accept (r : accept_result) : Prop :=
  ∃ c : Sock, r = (Some c, None).

(** A filter that records the calls it receives and whose answer to a
    call, with the packets it sends through the Modifier, may depend on
    everything it has been called with before and on the maps it is handed
    with the call (Init and Disconnect are handed none and send nothing).
    Init and Disconnect panic when the answer is a panic. *)
Definition recording
    (verdict : list call → call → option Modifier →
               list Message * outcome (option Response))
  : Milter (list call) :=
  let answer (c : call) (md : Modifier) (f : list call) :=
    (f ++ [c], fst (verdict f c (Some md)), snd (verdict f c (Some md))) in
  let notify (c : call) (f : list call) :=
    (f ++ [c], match snd (verdict f c None) with
               | Panics p => Some p
               | _ => None
               end) in
  {| Init sid mid := notify (CallInit sid mid);
     Disconnect := notify CallDisconnect;
     Connect host fam port ip md := answer (CallConnect host fam port ip) md;
     Helo name md := answer (CallHelo name) md;
     MailFrom a md := answer (CallMailFrom a) md;
     RcptTo a md := answer (CallRcptTo a) md;
     Header n v md := answer (CallHeader n v) md;
     Headers h md := answer (CallHeaders h) md;
     BodyChunk d md := answer (CallBodyChunk d) md;
     Body md := answer CallBody md |}.

(** The packet of the Modifier's AddHeader (spec 4.4: code [h], the name
    and the value as C-strings). *)
Definition add_header_packet (name value : gostring) : Message :=
  {| Code := "h"; Data := name ++ [x00] ++ value ++ [x00] |}.

(** A filter in the manner of the repository's test filter: its Body adds
    a header through the Modifier and then answers Accept; every other
    callback answers Continue and sends nothing. *)
Definition adds_header_at_body : Milter (list call) :=
  recording (λ _ c _, match c with
                      | CallBody =>
                          ([add_header_packet (bs "name") (bs "value")],
                           Ret (Some RespAccept))
                      | _ => ([], Ret (Some RespContinue))
                      end).

(** * Properties *)

(** ** Big-endian integers *)

Lemma byte_val_range (b : byte) : 0 ≤ byte_val b < 256.
Proof.
  unfold byte_val. pose proof (Byte.to_N_bounded b). lia.
Qed.

Lemma byte_val_of_Z (z : Z) : byte_val (byte_of_Z z) = z mod 256.
Proof.
  unfold byte_val, byte_of_Z.
  assert (Hr : 0 ≤ z mod 256 < 256) by (apply Z.mod_pos_bound; lia).
  destruct (Byte.of_N (Z.to_N (z mod 256))) as [b|] eqn:E.
  - apply Byte.to_of_N in E. rewrite E. lia.
  - apply Byte.of_N_None_iff in E. lia.
Qed.

(** An [a] shifted left by [k] and a [b] below [2^k] share no bit. *)
Lemma lor_shiftl_add (a b k : Z) :
  0 ≤ k → 0 ≤ b < 2 ^ k → Z.lor (Z.shiftl a k) b = a * 2 ^ k + b.
Proof.
  intros Hk Hb.
  rewrite <- Z.lxor_lor, <- Z.add_nocarry_lxor, Z.shiftl_mul_pow2; trivial.
  all: apply Z.bits_inj'; intros n Hn;
    rewrite Z.land_spec, Z.bits_0;
    destruct (Z.lt_ge_cases n k) as [Hlt|Hge];
    [ rewrite Z.shiftl_spec_low by trivial; reflexivity
    | rewrite andb_comm; replace (Z.testbit b n) with false; [reflexivity|];
      symmetry; destruct (Z.eq_dec b 0) as [->|Hnz];
      [ apply Z.bits_0
      | apply Z.bits_above_log2; [lia|];
        apply Z.lt_le_trans with k; [apply Z.log2_lt_pow2; lia | trivial] ] ].
Qed.

Lemma Uint32_PutUint32 (v : Z) : 0 ≤ v < 2 ^ 32 → Uint32 (PutUint32 v) = v.
Proof.
  intros Hv. unfold Uint32, PutUint32.
  rewrite !byte_val_of_Z, !Z.shiftr_div_pow2 by lia.
  change (2 ^ 32) with 4294967296 in Hv.
  change (2 ^ 8) with 256. change (2 ^ 16) with (256 * 256).
  change (2 ^ 24) with (256 * 256 * 256).
  rewrite <- !Z.div_div by lia.
  set (q1 := v / 256). set (q2 := q1 / 256). set (q3 := q2 / 256).
  pose proof (Z.div_mod v 256 ltac:(lia)) as E0.
  pose proof (Z.div_mod q1 256 ltac:(lia)) as E1.
  pose proof (Z.div_mod q2 256 ltac:(lia)) as E2.
  pose proof (Z.mod_pos_bound v 256 ltac:(lia)) as B0.
  pose proof (Z.mod_pos_bound q1 256 ltac:(lia)) as B1.
  pose proof (Z.mod_pos_bound q2 256 ltac:(lia)) as B2.
  fold q1 in E0. fold q2 in E1. fold q3 in E2.
  assert (B3 : 0 ≤ q3 < 256) by lia.
  rewrite (Z.mod_small q3) by lia.
  rewrite (lor_shiftl_add _ (v mod 256) 8) by (change (2 ^ 8) with 256; lia).
  rewrite (lor_shiftl_add _ _ 16)
    by (change (2 ^ 8) with 256; change (2 ^ 16) with 65536; lia).
  rewrite (lor_shiftl_add _ _ 24)
    by (change (2 ^ 8) with 256; change (2 ^ 16) with 65536;
        change (2 ^ 24) with 16777216; lia).
  change (2 ^ 8) with 256. change (2 ^ 16) with 65536.
  change (2 ^ 24) with 16777216. lia.
Qed.

(** ** The framing codec *)

Section Codec.
Context {F : Type}.
Implicit Types (m r w : milterSession F) (msg : Message).

Lemma ReadFull_exact (n : nat) (s : Sock) (pre rest : list byte) :
  length pre = n → n ≠ 0%nat →
  ReadFull n (set_rd s (pre ++ rest)) = (set_rd s rest, Ret pre).
Proof.
  intros Hn Hpos. unfold ReadFull.
  destruct n as [|n']; [done|].
  destruct pre as [|b pre']; [done|]. cbn [set_rd rd app].
  rewrite decide_True by (cbn; rewrite length_app; cbn in Hn; lia).
  change (b :: pre' ++ rest) with ((b :: pre') ++ rest).
  rewrite <- Hn, take_app_length, drop_app_length. reflexivity.
Qed.

Lemma length_PutUint32 (v : Z) : length (PutUint32 v) = 4%nat.
Proof. reflexivity. Qed.

Lemma sent_WritePacket w msg :
  wfail (sock w) = false →
  WritePacket w msg
    = (set_sock w (set_wr (sock w) (wr (sock w) ++ packet_bytes msg)), None)
  ∧ sent w (fst (WritePacket w msg)) = packet_bytes msg.
Proof.
  intros Hw. unfold WritePacket, sent. rewrite Hw. split; [reflexivity|].
  cbn [fst set_sock sock set_wr wr]. apply drop_app_length.
Qed.

(** Reading back one well-sized packet. *)
Lemma ReadPacket_packet_bytes r msg (rest : list byte) :
  Z.of_nat (length (Data msg)) + 1 < 2 ^ 32 →
  ReadPacket (feed r (packet_bytes msg ++ rest)) = (feed r rest, Ret msg).
Proof.
  intros Hlen. unfold ReadPacket, packet_bytes, feed.
  cbn [sock set_sock].
  assert (Hw : wrap32 (Z.of_nat (length (Data msg)) + 1)
               = Z.of_nat (length (Data msg)) + 1)
    by (unfold wrap32; apply Z.mod_small; lia).
  rewrite Hw, <- app_assoc.
  rewrite (ReadFull_exact 4) by first [apply length_PutUint32 | discriminate].
  rewrite Uint32_PutUint32 by lia.
  replace (Z.to_nat (Z.of_nat (length (Data msg)) + 1))
    with (length (Code msg :: Data msg)) by (cbn [length]; lia).
  rewrite ReadFull_exact by first [reflexivity | discriminate].
  destruct msg as [c d]. reflexivity.
Qed.

(** A length prefix that wrapped around to zero makes the reader fault
    on [data[0]]. *)
Lemma ReadPacket_zero_length r (rest : list byte) :
  ReadPacket (feed r (PutUint32 0 ++ rest))
  = (feed r rest, Panics (PanicError IndexOutOfRange)).
Proof.
  unfold ReadPacket, feed. cbn [sock set_sock].
  rewrite (ReadFull_exact 4) by first [apply length_PutUint32 | discriminate].
  reflexivity.
Qed.

(** Writing a message whose length prefix wraps to zero, and reading the
    written bytes back. *)
Lemma roundtrip_wrapped_length w r msg :
  wfail (sock w) = false →
  wrap32 (Z.of_nat (length (Data msg)) + 1) = 0 →
  snd (WritePacket w msg) = None
  ∧ snd (ReadPacket (feed r (sent w (fst (WritePacket w msg)))))
    = Panics (PanicError IndexOutOfRange).
Proof.
  intros Hw Hz. destruct (sent_WritePacket w msg Hw) as [Hwp Hsent].
  rewrite Hsent, Hwp. split; [reflexivity|].
  unfold packet_bytes. rewrite Hz, ReadPacket_zero_length. reflexivity.
Qed.

(** C5 (as amended): for every code byte and every payload of at most
    2^32 - 2 bytes, writing the message with WritePacket on a connection
    whose writes succeed and reading the bytes it put on the wire with
    ReadPacket yields exactly that message, and leaves what follows it on
    the stream unread. *)
Theorem C5_roundtrip_within_uint32 w r msg (rest : list byte) :
  Z.of_nat (length (Data msg)) + 1 < 2 ^ 32 →
  wfail (sock w) = false →
  snd (WritePacket w msg) = None
  ∧ ReadPacket (feed r (sent w (fst (WritePacket w msg)) ++ rest))
    = (feed r rest, Ret msg).
Proof.
  intros Hlen Hw. destruct (sent_WritePacket w msg Hw) as [Hwp Hsent].
  rewrite Hsent, Hwp. split; [reflexivity|].
  apply ReadPacket_packet_bytes, Hlen.
Qed.

(** C1: a packet whose length prefix is 0 does not make ReadPacket return
    an error: the empty packet is indexed at [data[0]] and the read path
    panics. *)
Theorem C1_zero_length_prefix_panics r (rest : list byte) :
  ReadPacket (feed r ([x00; x00; x00; x00] ++ rest))
  = (feed r rest, Panics (PanicError IndexOutOfRange)).
Proof. exact (ReadPacket_zero_length r rest). Qed.

End Codec.

Lemma C5_roundtrip_within_uint32_witness :
  let w := fresh 0 [] in
  let msg := {| Code := "c"; Data := bs "hello" |} in
  snd (WritePacket w msg) = None
  ∧ ReadPacket (feed (fresh 0 []) (sent w (fst (WritePacket w msg)) ++ [x07]))
    = (feed (fresh 0 []) [x07], Ret msg).
Proof.
  apply (C5_roundtrip_within_uint32 (fresh 0 [])); [vm_compute; reflexivity | reflexivity].
Defined.

Lemma length_huge_payload : Z.of_nat (length huge_payload) = 2 ^ 32 - 1.
Proof.
  unfold huge_payload. rewrite repeat_length. apply Z2Nat.id. discriminate.
Qed.

Global Opaque huge_payload.

(** C5, the claim as stated fails: a payload of 2^32 - 1 bytes gets the
    length prefix 0, and reading the written bytes back panics instead of
    yielding the message. *)
Lemma C5_counterexample_length_wraps :
  snd (WritePacket (fresh 0 []) huge_message) = None
  ∧ snd (ReadPacket (feed (fresh 0 [])
           (sent (fresh 0 []) (fst (WritePacket (fresh 0 []) huge_message)))))
    = Panics (PanicError IndexOutOfRange)
  ∧ snd (ReadPacket (feed (fresh 0 [])
           (sent (fresh 0 []) (fst (WritePacket (fresh 0 []) huge_message)))))
    ≠ Ret huge_message.
Proof.
  assert (Hz : wrap32 (Z.of_nat (length (Data huge_message)) + 1) = 0).
  { change (Data huge_message) with huge_payload.
    rewrite length_huge_payload. reflexivity. }
  destruct (roundtrip_wrapped_length (fresh 0 []) (fresh 0 []) huge_message
              eq_refl Hz) as [H1 H2].
  split; [exact H1|]. split; [exact H2|]. rewrite H2. discriminate.
Qed.

(** ** Command dispatch *)

Section Dispatch.
Context {F : Type} {RT : GoRuntime} {FI : Milter F}.
Implicit Types (m : milterSession F) (msg : Message).

(** What the packets a callback sends through the Modifier do to the
    session: they are appended to what was written, unless writes fail. *)
Lemma through_modifier_spec m (pkts : list Message) :
  through_modifier m pkts
  = set_sock m (set_wr (sock m)
                  (wr (sock m) ++ modifier_bytes (wfail (sock m)) pkts)).
Proof.
  unfold through_modifier, modifier_bytes. revert m.
  induction pkts as [|msg pkts IH]; intros m; cbn [foldl map concat].
  - destruct m as [? ? [? ? [] ?] ? ? ? ? ? ? ?]; cbn; rewrite app_nil_r;
      reflexivity.
  - rewrite IH. unfold WritePacket. destruct (wfail (sock m)) eqn:E;
      cbn [fst sock set_sock wr wfail set_wr]; rewrite ?E; [reflexivity|].
    rewrite <- app_assoc. reflexivity.
Qed.

(** Process reads nothing from the connection and neither closes nor
    breaks it; what it adds to the bytes written is the packets the
    callback sent through the Modifier. *)
Lemma Process_sock m msg :
  rd (sock (fst (Process m msg))) = rd (sock m)
  ∧ wfail (sock (fst (Process m msg))) = wfail (sock m)
  ∧ closed (sock (fst (Process m msg))) = closed (sock m)
  ∧ ∃ pkts : list Message,
      wr (sock (fst (Process m msg)))
      = wr (sock m) ++ modifier_bytes (wfail (sock m)) pkts.
Proof.
  unfold Process; destruct msg as [[] ?]; cbv beta iota zeta;
    cbn [Code Data]; repeat case_match; unfold callback;
    rewrite ?through_modifier_spec; cbn [fst snd];
    (split; [reflexivity|]); (split; [reflexivity|]); (split; [reflexivity|]);
    first [ eexists; reflexivity
          | exists []; unfold modifier_bytes; cbn; destruct (wfail _);
            rewrite app_nil_r; reflexivity ].
Qed.

(** Process never looks at the protocol mask, except to report it in the
    reply to 'O'. *)
Lemma Process_ignores_protocol m (B : OptProtocol) msg :
  Code msg ≠ "O"%byte →
  Process (set_protocol m B) msg
  = (set_protocol (fst (Process m msg)) B, snd (Process m msg)).
Proof.
  intros HO. unfold Process; destruct msg as [[] ?]; cbv beta iota zeta;
    cbn [Code Data] in *; try done; unfold callback;
    cbn [set_protocol set_headers set_macros set_milter set_mailID Printf
         newModifier sessionID mailID milter macros headers draws fst snd];
    try reflexivity;
    repeat (case_match; cbn [fst snd]; try reflexivity);
    rewrite !through_modifier_spec; reflexivity.
Qed.

(** A code outside the command table takes the default branch. *)
Lemma Process_unknown m msg :
  Code msg ∉ command_table →
  Process m msg = (Printf m (LogUnrecognized (Code msg)), Fail ErrCloseSession).
Proof.
  intros Hc. unfold Process; destruct msg as [[] ?]; cbn [Code Data] in *;
    first [ reflexivity
          | exfalso; apply Hc; unfold command_table;
            repeat first [ apply list_elem_of_here | apply list_elem_of_further ] ].
Qed.

End Dispatch.

(** ** The session loop *)

Section Loop.
Context {F : Type} {RT : GoRuntime} {FI : Milter F}.
Implicit Types (m : milterSession F) (msg : Message).

Lemma ReadFull_consumes (n : nat) (s s' : Sock) (d : list byte) :
  ReadFull n s = (s', Ret d) →
  (length (rd s') + n = length (rd s))%nat.
Proof.
  unfold ReadFull. destruct n as [|n']; [intros [= <- _]; lia|].
  destruct (rd s) as [|b l] eqn:E; [discriminate|].
  case_decide; [|discriminate]. intros [= <- _].
  cbn [rd set_rd]. rewrite length_drop. cbn [length] in *. lia.
Qed.

(** A packet that is read takes at least its four length bytes off the
    stream. *)
Lemma ReadPacket_consumes m m1 msg :
  ReadPacket m = (m1, Ret msg) →
  (length (rd (sock m1)) < length (rd (sock m)))%nat.
Proof.
  unfold ReadPacket.
  destruct (ReadFull 4 (sock m)) as [s1 [hdr|e|p]] eqn:E1; try discriminate.
  destruct (ReadFull _ s1) as [s2 [[|c d]|e|p]] eqn:E2; try discriminate.
  intros [= <- _]. cbn [sock set_sock].
  apply ReadFull_consumes in E1, E2. lia.
Qed.

Lemma WritePacket_rd m msg : rd (sock (fst (WritePacket m msg))) = rd (sock m).
Proof. unfold WritePacket. destruct (wfail (sock m)); reflexivity. Qed.

(** The loop is total: with more fuel than bytes still to arrive it
    always ends. *)
Lemma serve_total (fuel : nat) m :
  (length (rd (sock m)) < fuel)%nat → is_Some (serve fuel m).
Proof.
  revert m. induction fuel as [|fuel IH]; intros m Hf; [lia|].
  cbn [serve].
  destruct (ReadPacket m) as [m1 [msg|e|p]] eqn:ER; [|eauto..].
  apply ReadPacket_consumes in ER.
  pose proof (Process_sock m1 msg) as [HP _].
  destruct (Process m1 msg) as [m2 [[resp|]|e|p]]; cbn [fst] in HP; [| |eauto..].
  - pose proof (WritePacket_rd m2 (Response_Message resp)) as HW.
    destruct (WritePacket m2 (Response_Message resp)) as [m3 [e|]];
      cbn [fst] in HW; [eauto|].
    apply IH. rewrite HW, HP. lia.
  - apply IH. rewrite HP. lia.
Qed.

(** HandleMilterCommands always ends, and leaves the connection closed
    whether it returns or panics. *)
Lemma HandleMilterCommands_total m :
  ∃ m' p, HandleMilterCommands m = Some (m', p) ∧ closed (sock m') = true.
Proof.
  unfold HandleMilterCommands.
  destruct (Init _ _ _) as [f [p|]].
  - unfold deferred. destruct (Disconnect _) as [f' pd]. eauto.
  - match goal with |- context [serve ?n ?s] =>
      destruct (serve_total n s) as [[m1 p1] ->]; [cbn; lia|] end.
    cbn [fmap option_fmap option_map]. unfold deferred.
    destruct (Disconnect _) as [f' pd]. eauto.
Qed.

(** One turn of the loop on a command that yields a response: the
    response packet is written and the loop goes on. *)
Lemma serve_reply (fuel : nat) m m1 m2 msg (resp : Response) :
  ReadPacket m = (m1, Ret msg) →
  Process m1 msg = (m2, Ret (Some resp)) →
  wfail (sock m2) = false →
  serve (S fuel) m
  = serve fuel (set_sock m2 (set_wr (sock m2)
                   (wr (sock m2) ++ packet_bytes (Response_Message resp)))).
Proof.
  intros ER EP Hw. cbn [serve]. rewrite ER, EP.
  unfold WritePacket. rewrite Hw. reflexivity.
Qed.

(** One turn of the loop on a command that yields no response: nothing
    is written and the loop goes on. *)
Lemma serve_silent (fuel : nat) m m1 m2 msg :
  ReadPacket m = (m1, Ret msg) →
  Process m1 msg = (m2, Ret None) →
  serve (S fuel) m = serve fuel m2.
Proof. intros ER EP. cbn [serve]. rewrite ER, EP. reflexivity. Qed.

End Loop.

(** ** Replies and the no-reply bits *)

Section Replies.
Context {F : Type} {RT : GoRuntime} {FI : Milter F}.
Implicit Types (m : milterSession F) (msg : Message).

Lemma ReadFull_keeps (n : nat) (s : Sock) :
  wr (fst (ReadFull n s)) = wr s ∧ wfail (fst (ReadFull n s)) = wfail s.
Proof.
  unfold ReadFull. destruct n; [done|]. destruct (rd s); [done|].
  case_decide; done.
Qed.

(** Reading changes neither what was written nor whether writes work. *)
Lemma ReadPacket_keeps m :
  wr (sock (fst (ReadPacket m))) = wr (sock m)
  ∧ wfail (sock (fst (ReadPacket m))) = wfail (sock m).
Proof.
  unfold ReadPacket.
  pose proof (ReadFull_keeps 4 (sock m)) as [K1 K2].
  destruct (ReadFull 4 (sock m)) as [s1 [hdr|e|p]]; cbn [fst] in *; [|done..].
  pose proof (ReadFull_keeps (Z.to_nat (Uint32 hdr)) s1) as [K3 K4].
  destruct (ReadFull _ s1) as [s2 [[|c d]|e|p]]; cbn [fst sock set_sock] in *;
    split; congruence.
Qed.

(** Reading does not depend on the protocol mask. *)
Lemma ReadPacket_protocol m (B : OptProtocol) :
  ReadPacket (set_protocol m B)
  = (set_protocol (fst (ReadPacket m)) B, snd (ReadPacket m)).
Proof.
  unfold ReadPacket. cbn [sock set_protocol].
  destruct (ReadFull 4 (sock m)) as [s1 [hdr|e|p]]; [|done..].
  destruct (ReadFull _ s1) as [s2 [[|c d]|e|p]]; done.
Qed.

(** C2 (as amended): whatever the negotiated protocol mask [B] and its
    no-reply bits, a command other than 'O' is handled as under any other
    mask, and on a connection whose writes succeed the bytes put on the
    wire for it are the packets the filter callback itself sent through
    the Modifier while it ran, followed by exactly the one packet of the
    response when the handler yields one, Continue included, and by
    nothing when the handler yields no response (nil); the loop then goes
    on with the next command. *)
Theorem C2_reply_whatever_the_noreply_bits
    (fuel : nat) m m1 m2 msg (r : option Response) (B : OptProtocol) :
  Code msg ≠ "O"%byte →
  wfail (sock m) = false →
  ReadPacket m = (m1, Ret msg) →
  Process m1 msg = (m2, Ret r) →
  serve (S fuel) (set_protocol m B) = serve fuel (set_protocol (reply m2 r) B)
  ∧ sent m (reply m2 r)
    = sent m1 m2
      ++ match r with
         | Some resp => packet_bytes (Response_Message resp)
         | None => []
         end.
Proof.
  intros HO Hw ER EP.
  pose proof (ReadPacket_keeps m) as [K1 K2]. rewrite ER in K1, K2.
  pose proof (Process_sock m1 msg) as (_ & KF & _ & pkts & KW).
  rewrite EP in KF, KW. cbn [fst] in K1, K2, KF, KW.
  split.
  - cbn [serve]. rewrite ReadPacket_protocol, ER. cbn [fst snd].
    rewrite (Process_ignores_protocol m1 B msg HO), EP. cbn [fst snd].
    destruct r as [resp|]; [|reflexivity].
    assert (Hw2 : wfail (sock m2) = false) by congruence.
    unfold WritePacket. cbn [sock set_protocol].
    rewrite Hw2. reflexivity.
  - rewrite K1 in KW. unfold sent, reply. rewrite K1. destruct r as [resp|].
    + cbn [sock set_sock wr set_wr]. rewrite KW, <- app_assoc, !drop_app_length.
      reflexivity.
    + rewrite KW, drop_app_length, app_nil_r. reflexivity.
Qed.

End Replies.

(** ** Macros *)

Section MacroFacts.
Context {F : Type} {RT : GoRuntime} {FI : Milter F}.
Implicit Types (m : milterSession F) (msg : Message).

(** Induction on a list two elements at a time, as the loop of case 'D'
    walks it. *)
Lemma pairwise_ind {A : Type} (P : list A → Prop) :
  P [] → (∀ x, P [x]) → (∀ x y l, P l → P (x :: y :: l)) → ∀ l, P l.
Proof.
  intros H0 H1 H2.
  assert (HP : ∀ l, P l ∧ ∀ x, P (x :: l)).
  { induction l as [|y l [IH1 IH2]]; split; auto. }
  intros l. apply HP.
Qed.

(** The loop of case 'D' ends normally on a list of even length and
    panics on [data[i+1]] on a list of odd length. *)
Lemma store_macros_parity (data : list gostring) (mac : MacroMap) :
  snd (store_macros data mac)
  = if Nat.even (length data) then None
    else Some (PanicError IndexOutOfRange).
Proof.
  revert mac. induction data as [| |k v rest IH] using pairwise_ind;
    intros mac; [reflexivity..|].
  cbn [store_macros length]. rewrite IH. reflexivity.
Qed.

(** What case 'D' does on a payload with a stage byte. *)
Lemma Process_D m (stage : byte) (rest : list byte) :
  Process m {| Code := "D"; Data := stage :: rest |}
  = (set_macros m (Some (fst (store_macros (decodeCStrings rest) ∅))),
     match snd (store_macros (decodeCStrings rest) ∅) with
     | Some p => Panics p
     | None => Ret None
     end).
Proof.
  unfold Process. cbn [Code Data]. unfold slice_from.
  rewrite decide_True by (cbn [length]; lia). cbn [drop].
  destruct (store_macros _ _) as [mac [p|]]; reflexivity.
Qed.

(** C3: each 'D' command starts from a new, empty map: the macro map
    after it holds the pairs of this packet alone, whatever was defined
    before.  Here the binding of [a] made by a first 'D' is gone after a
    second 'D' that defines only [c]. *)
Theorem C3_define_macros_drops_earlier_bindings m :
  let d1 := {| Code := "D"; Data := bs "Ca" ++ [x00] ++ bs "b" ++ [x00] |} in
  let d2 := {| Code := "D"; Data := bs "Cc" ++ [x00] ++ bs "d" ++ [x00] |} in
  let m1 := fst (Process m d1) in
  let m2 := fst (Process m1 d2) in
  macros m1 = Some {[ bs "a" := bs "b" ]}
  ∧ snd (Process m1 d2) = Ret None
  ∧ macros m2 = Some {[ bs "c" := bs "d" ]}
  ∧ (macros m2 ≫= (.!! bs "a")) = None.
Proof.
  intros d1 d2 m1 m2. subst d1 d2 m1 m2.
  change (bs "Ca" ++ [x00] ++ bs "b" ++ [x00])
    with ("C"%byte :: (bs "a" ++ [x00] ++ bs "b" ++ [x00])).
  change (bs "Cc" ++ [x00] ++ bs "d" ++ [x00])
    with ("C"%byte :: (bs "c" ++ [x00] ++ bs "d" ++ [x00])).
  rewrite !Process_D. cbn [fst snd macros set_macros].
  repeat split.
Qed.

(** C4: a 'D' command with an empty payload faults: [msg.Data[1:]] is
    out of range, after the macro map has already been replaced by an
    empty one.  With the stage byte alone nothing faults and no response
    is sent, but the macro map is emptied, not left as it was. *)
Theorem C4_define_macros_empty_payload m :
  Process m {| Code := "D"; Data := [] |}
  = (set_macros m (Some ∅), Panics (PanicError SliceBoundsOutOfRange))
  ∧ ∀ stage : byte,
      Process m {| Code := "D"; Data := [stage] |}
      = (set_macros m (Some ∅), Ret None).
Proof.
  split; [reflexivity|]. intros stage. rewrite Process_D. reflexivity.
Qed.

(** C10: a 'D' command whose payload, after the stage byte, decodes to an
    odd number of strings panics: the loop reads [data[i+1]] one past
    the end of the list. *)
Theorem C10_define_macros_odd_count_panics m (stage : byte) (rest : list byte) :
  Nat.Odd (length (decodeCStrings rest)) →
  snd (Process m {| Code := "D"; Data := stage :: rest |})
  = Panics (PanicError IndexOutOfRange).
Proof.
  intros Hodd. rewrite Process_D. cbn [snd].
  rewrite store_macros_parity.
  apply Nat.odd_spec in Hodd. rewrite <- Nat.negb_odd, Hodd. reflexivity.
Qed.

End MacroFacts.

(** ** Headers, short payloads and unknown codes *)

Section Commands.
Context {F : Type} {RT : GoRuntime} {FI : Milter F}.
Implicit Types (m : milterSession F) (msg : Message).

(** C6 (as amended): the header map is nil right after an 'A' (abort)
    command; an 'M' (MAIL FROM) command leaves the header map exactly as
    it was. *)
Theorem C6_headers_cleared_by_abort_only m (payload : list byte) :
  headers (fst (Process m {| Code := "A"; Data := payload |})) = None
  ∧ headers (fst (Process m {| Code := "M"; Data := payload |})) = headers m.
Proof.
  unfold Process. cbn [Code Data]. split.
  - destruct (Init _ _ _) as [f [p|]]; reflexivity.
  - destruct (Init _ _ _) as [f [p|]]; [reflexivity|].
    unfold callback. rewrite through_modifier_spec. reflexivity.
Qed.

Lemma is_nul_false (b : byte) : b ≠ x00 → is_nul b = false.
Proof.
  intros Hb. unfold is_nul. destruct (Byte.eqb b x00) eqn:E; [|reflexivity].
  apply Byte.byte_dec_bl in E. contradiction.
Qed.

(** Reading a terminated C-string gives the bytes before the NUL. *)
Lemma readCString_terminated (host tail : list byte) :
  x00 ∉ host → readCString (host ++ x00 :: tail) = host.
Proof.
  induction host as [|b host IH]; intros Hn; [reflexivity|].
  cbn [app readCString].
  rewrite is_nul_false by (intros ->; apply Hn; left).
  f_equal. apply IH. intros Hin. apply Hn. right. exact Hin.
Qed.

(** One turn of the loop on a well-sized packet at the head of the
    stream, when its command ends normally. *)
Lemma serve_packet (fuel : nat) m m2 msg (r : option Response) (rest : list byte) :
  Z.of_nat (length (Data msg)) + 1 < 2 ^ 32 →
  wfail (sock m) = false →
  Process (feed m rest) msg = (m2, Ret r) →
  serve (S fuel) (feed m (packet_bytes msg ++ rest)) = serve fuel (reply m2 r).
Proof.
  intros Hlen Hw EP. cbn [serve].
  rewrite ReadPacket_packet_bytes by trivial. rewrite EP.
  destruct r as [resp|]; [|reflexivity].
  pose proof (Process_sock (feed m rest) msg) as (_ & KF & _). rewrite EP in KF.
  cbn [fst feed sock set_sock set_rd wfail] in KF. rewrite Hw in KF.
  unfold WritePacket. rewrite KF. reflexivity.
Qed.

(** C7 (as amended): a 'C' packet that carries a host name and the family
    '4' or '6' but fewer than two bytes for the port yields Tempfail; the
    Tempfail packet is written and the loop goes on with the next
    command.  An 'L' packet that does not decode to exactly two strings
    yields Continue, and the filter is not called. *)
Theorem C7_short_payload_as_coded
    (fuel : nat) m (host data hdr rest : list byte) (fam : byte) :
  x00 ∉ host →
  fam ∈ ["4"; "6"]%byte →
  (length data < 2)%nat →
  length (decodeCStrings hdr) ≠ 2%nat →
  wfail (sock m) = false →
  Z.of_nat (length host) + 4 < 2 ^ 32 →
  let short := {| Code := "C"; Data := host ++ x00 :: fam :: data |} in
  (∀ m0 : milterSession F, Process m0 short = (m0, Ret (Some RespTempFail)))
  ∧ serve (S fuel) (feed m (packet_bytes short ++ rest))
    = serve fuel (reply (feed m rest) (Some RespTempFail))
  ∧ snd (Process m {| Code := "L"; Data := hdr |}) = Ret (Some RespContinue)
  ∧ milter (fst (Process m {| Code := "L"; Data := hdr |})) = milter m.
Proof.
  intros Hhost Hfam Hdata Hhdr Hw Hlen short.
  assert (HC : ∀ m0 : milterSession F,
             Process m0 short = (m0, Ret (Some RespTempFail))).
  { intros m0. unfold Process, short. cbn [Code Data].
    rewrite readCString_terminated by trivial.
    unfold slice_from. rewrite decide_True by (rewrite length_app; cbn; lia).
    rewrite drop_app_add' by reflexivity. cbn [drop].
    assert (Hf : Byte.eqb fam "4" || Byte.eqb fam "6" = true).
    { apply elem_of_cons in Hfam as [->|Hfam]; [reflexivity|].
      apply elem_of_cons in Hfam as [->|Hfam]; [reflexivity|].
      inversion Hfam. }
    rewrite Hf. rewrite decide_True by trivial. reflexivity. }
  split; [exact HC|]. split.
  - apply serve_packet; [|trivial|apply HC].
    unfold short. cbn [Data]. rewrite length_app. cbn [length]. lia.
  - unfold Process. cbn [Code Data].
    destruct (headers m); cbn [headers set_headers];
      destruct (decodeCStrings hdr) as [|a [|b [|c l]]];
      first [ done | split; reflexivity ].
Qed.

(** C8 (as amended): for a packet whose code is not in the command table,
    whatever the negotiated protocol mask, no filter callback is called
    and no response is written: the code is logged, the loop ends, and
    the deferred calls close the connection. *)
Theorem C8_unknown_code_closes_session (fuel : nat) m m1 msg :
  Code msg ∉ command_table →
  ReadPacket m = (m1, Ret msg) →
  let m2 := Printf m1 (LogUnrecognized (Code msg)) in
  Process m1 msg = (m2, Fail ErrCloseSession)
  ∧ serve (S fuel) m = Some (m2, None)
  ∧ milter m2 = milter m1
  ∧ wr (sock m2) = wr (sock m)
  ∧ closed (sock (fst (deferred (m2, None)))) = true.
Proof.
  intros Hc ER m2. pose proof (Process_unknown m1 msg Hc) as EP.
  split; [exact EP|]. split; [cbn [serve]; rewrite ER, EP; reflexivity|].
  split; [reflexivity|]. split.
  - pose proof (ReadPacket_keeps m) as [K _]. rewrite ER in K. exact K.
  - unfold deferred. destruct (Disconnect _) as [f pd]. reflexivity.
Qed.

End Commands.

(** ** The panic boundary *)

Section Boundary.
Context {F W : Type} {RT : GoRuntime} {FI : Milter F}.

(** How the goroutine of a connection ends, for every server, connection
    and filter.  handleCon always ends; the connection is closed when a
    session was run, and left as it was accepted when the factory panicked
    before there was one.  A panic with the value [v] is recovered when
    the handler slice is not nil, and every handler of the slice is then
    called once, in order, with the normalized error of [v]; with a nil
    slice it is not recovered and ends the process. *)
Lemma connection_goroutine_ends (s : Server (F := F) (W := W)) (c : Sock) (k : nat) (w : W) :
  ∃ (h : handled) (p : option panicval),
    handleCon s c k = Some (h, p)
    ∧ match h with
      | Ran m => closed (sock m) = true
      | NotStarted c' => c' = c ∧ ∃ v, MilterFactory s = FactoryPanics v ∧ p = Some v
      end
    ∧ connection_goroutine s c k w
      = Some (h,
              match p, ErrHandlers s with
              | Some v, Some hs => foldl (λ w f, f (normalized v) w) w hs
              | _, _ => w
              end,
              match p, ErrHandlers s with
              | Some v, None => Crashed v
              | _, _ => Returned
              end).
Proof.
  unfold connection_goroutine, handleCon.
  destruct (MilterFactory s) as [f a q|v].
  - destruct (HandleMilterCommands_total (new_session s f a q c k))
      as (m' & p & EH & Hc).
    exists (Ran m'), p. rewrite EH. cbn [fmap option_fmap option_map].
    split; [reflexivity|]. split; [exact Hc|].
    cbn [mbind option_bind]. unfold handlePanic.
    destruct p as [v|], (ErrHandlers s) as [hs|]; reflexivity.
  - exists (NotStarted c), (Some v). split; [reflexivity|].
    split; [split; [reflexivity | exists v; done]|].
    cbn [mbind option_bind]. unfold handlePanic.
    destruct (ErrHandlers s) as [hs|]; reflexivity.
Qed.

End Boundary.

(** * The claims on concrete sessions *)

(** C1 at the level of the server: on a stream that starts with the length
    prefix 0 the session panics; nothing is logged, and with a nil handler
    slice the panic ends the process. *)
Example zero_length_prefix_without_handlers :
  (λ '(h, w, e), (match h with Ran m => logger m | NotStarted _ => [] end,
                  closed (connection_of h), e))
    <$> connection_goroutine (RT := example_runtime) (FI := always_continue)
          {| MilterFactory := Made [] OptNone 0; ErrHandlers := None;
             Logger := [] |}
          (conn [x00; x00; x00; x00]) 0 tt
  = Some ([], true, Crashed (PanicError IndexOutOfRange)).
Proof. vm_compute. reflexivity. Qed.

(** C2, the claim as stated fails: with the no-reply bit for Connect
    negotiated and a filter that answers Continue to Connect, the session
    writes a Continue packet. *)
Lemma C2_counterexample_continue_packet_with_nr_conn :
  has_bit OptNrConn OptNrConn = true
  ∧ observe (HandleMilterCommands (RT := example_runtime) (FI := always_continue)
               (fresh OptNrConn (packet "C" connect_payload)))
    = Some ([CallInit example_id [];
             CallConnect (bs "localhost") (bs "tcp4") 25 (bs "127.0.0.1");
             CallDisconnect],
            [x00; x00; x00; x01; "c"%byte], true, [], None).
Proof. split; vm_compute; reflexivity. Qed.

Lemma C2_reply_whatever_the_noreply_bits_witness :
  (let msg := {| Code := "C"; Data := connect_payload |} in
   let m := fresh OptNone (packet_bytes msg) in
   let m1 := fst (ReadPacket m) in
   let m2 := fst (Process (RT := example_runtime) (FI := always_continue) m1 msg) in
   serve (RT := example_runtime) (FI := always_continue) 2 (set_protocol m OptNrConn)
   = serve (RT := example_runtime) (FI := always_continue) 1
       (set_protocol (reply m2 (Some RespContinue)) OptNrConn)
   ∧ sent m (reply m2 (Some RespContinue))
     = sent m1 m2 ++ packet_bytes (Response_Message RespContinue))
  ∧ (let msg := {| Code := "E"; Data := [] |} in
     let m := fresh OptNone (packet_bytes msg) in
     let m1 := fst (ReadPacket m) in
     let m2 := fst (Process (RT := example_runtime) (FI := adds_header_at_body)
                      m1 msg) in
     serve (RT := example_runtime) (FI := adds_header_at_body) 2
       (set_protocol m OptNrBody)
     = serve (RT := example_runtime) (FI := adds_header_at_body) 1
         (set_protocol (reply m2 (Some RespAccept)) OptNrBody)
     ∧ sent m (reply m2 (Some RespAccept))
       = sent m1 m2 ++ packet_bytes (Response_Message RespAccept)).
Proof.
  split.
  - intros msg m m1 m2.
    apply (C2_reply_whatever_the_noreply_bits (RT := example_runtime)
             (FI := always_continue) 1 m m1 m2 msg
             (Some RespContinue) OptNrConn);
      [discriminate | reflexivity | vm_compute; reflexivity
      | vm_compute; reflexivity].
  - intros msg m m1 m2.
    apply (C2_reply_whatever_the_noreply_bits (RT := example_runtime)
             (FI := adds_header_at_body) 1 m m1 m2 msg
             (Some RespAccept) OptNrBody);
      [discriminate | reflexivity | vm_compute; reflexivity
      | vm_compute; reflexivity].
Defined.

(** What C2's statement amounts to on these two sessions: the Continue of
    Connect is one packet of five bytes, and at end of body the header
    packet sent through the Modifier comes before the Accept packet. *)
Example reply_bytes_on_the_wire :
  (let msg := {| Code := "C"; Data := connect_payload |} in
   let m := fresh OptNone (packet_bytes msg) in
   let m2 := fst (Process (RT := example_runtime) (FI := always_continue)
                    (fst (ReadPacket m)) msg) in
   sent m (reply m2 (Some RespContinue)) = [x00; x00; x00; x01; "c"%byte])
  ∧ (let msg := {| Code := "E"; Data := [] |} in
     let m := fresh OptNone (packet_bytes msg) in
     let m2 := fst (Process (RT := example_runtime) (FI := adds_header_at_body)
                      (fst (ReadPacket m)) msg) in
     sent m (reply m2 (Some RespAccept))
     = packet_bytes (add_header_packet (bs "name") (bs "value"))
       ++ [x00; x00; x00; x01; "a"%byte]).
Proof. split; vm_compute; reflexivity. Qed.

(** C6, the claim as stated fails: a header of a first message is still in
    the header map after the 'M' that begins a second message, and the
    Headers callback of the second message is handed it. *)
Lemma C6_counterexample_headers_survive_mail_from :
  let first := packet "M" (bs "<x@y.z>" ++ [x00])
               ++ packet "L" (bs "X-Old" ++ [x00] ++ bs "1" ++ [x00])
               ++ packet "N" [] ++ packet "E" [] in
  let second := packet "M" (bs "<a@b.c>" ++ [x00]) ++ packet "N" [] in
  (λ '(m, _), (entries (headers m), headers_seen (milter m)))
    <$> HandleMilterCommands (RT := example_runtime) (FI := always_continue)
          (fresh 0 (first ++ second))
  = Some ([(bs "X-Old", [bs "1"])],
          [[(bs "X-Old", [bs "1"])]; [(bs "X-Old", [bs "1"])]]).
Proof. vm_compute. reflexivity. Qed.

(** C7, the claim as stated fails: an 'L' packet with a header name and no
    value is shorter than the code requires, and its response is Continue,
    not Tempfail. *)
Lemma C7_counterexample_short_header_gets_continue :
  snd (Process (RT := example_runtime) (FI := always_continue) (fresh 0 [])
         {| Code := "L"; Data := bs "Subject" ++ [x00] |})
  = Ret (Some RespContinue)
  ∧ RespContinue ≠ RespTempFail.
Proof. split; [vm_compute; reflexivity | discriminate]. Qed.

Lemma C7_short_payload_as_coded_witness :
  let short := {| Code := "C"; Data := bs "mx" ++ x00 :: "4"%byte :: [x00] |} in
  let m := fresh 0 [] in
  (∀ m0 : milterSession (list call),
     Process (RT := example_runtime) (FI := always_continue) m0 short
     = (m0, Ret (Some RespTempFail)))
  ∧ serve (RT := example_runtime) (FI := always_continue) 2
      (feed m (packet_bytes short ++ []))
    = serve (RT := example_runtime) (FI := always_continue) 1
        (reply (feed m []) (Some RespTempFail))
  ∧ snd (Process (RT := example_runtime) (FI := always_continue) m
           {| Code := "L"; Data := bs "Subject" ++ [x00] |})
    = Ret (Some RespContinue)
  ∧ milter (fst (Process (RT := example_runtime) (FI := always_continue) m
                   {| Code := "L"; Data := bs "Subject" ++ [x00] |}))
    = milter m.
Proof.
  intros short m.
  apply (C7_short_payload_as_coded (RT := example_runtime)
           (FI := always_continue) 1 m (bs "mx") [x00]
           (bs "Subject" ++ [x00]) [] "4"%byte).
  - apply (bool_decide_unpack _). vm_compute. exact I.
  - apply (bool_decide_unpack _). vm_compute. exact I.
  - vm_compute. lia.
  - vm_compute. discriminate.
  - reflexivity.
  - vm_compute. reflexivity.
Defined.

(** C8, the claim as stated fails: with no protocol bit set, so that the
    MTA is free to send unknown commands, and equally with every protocol
    bit set, a packet with the code 'X' gets no Continue response and no
    filter callback: nothing is written and the session ends. *)
Lemma C8_counterexample_unknown_code_never_answered :
  observe (HandleMilterCommands (RT := example_runtime) (FI := always_continue)
             (fresh 0 (packet "X" (bs "hi"))))
  = Some ([CallInit example_id []; CallDisconnect], [], true,
          [LogUnrecognized "X"], None)
  ∧ observe (HandleMilterCommands (RT := example_runtime) (FI := always_continue)
               (fresh 0xFFFFFFFF (packet "X" (bs "hi"))))
    = Some ([CallInit example_id []; CallDisconnect], [], true,
            [LogUnrecognized "X"], None).
Proof. split; vm_compute; reflexivity. Qed.

Lemma C8_unknown_code_closes_session_witness :
  let msg := {| Code := "X"; Data := bs "hi" |} in
  let m := fresh 0 (packet_bytes msg) in
  let m1 := fst (ReadPacket m) in
  let m2 := Printf m1 (LogUnrecognized "X") in
  Process (RT := example_runtime) (FI := always_continue) m1 msg
  = (m2, Fail ErrCloseSession)
  ∧ serve (RT := example_runtime) (FI := always_continue) 1 m = Some (m2, None)
  ∧ milter m2 = milter m1
  ∧ wr (sock m2) = wr (sock m)
  ∧ closed (sock (fst (deferred (FI := always_continue) (m2, None)))) = true.
Proof.
  intros msg m m1 m2.
  apply (C8_unknown_code_closes_session (RT := example_runtime)
           (FI := always_continue) 0 m m1 msg).
  - apply (bool_decide_unpack _). vm_compute. exact I.
  - vm_compute. reflexivity.
Defined.

(** C9: with a handler slice that is empty but not nil no handler is
    registered, yet handlePanic recovers every panic and drops it: no
    handler is called and the goroutine returns as if nothing had
    happened.  In the session evaluated here the panic is one of the
    filter's Helo callback. *)
Theorem C9_empty_handler_slice_drops_panic :
  (∀ (v : panicval) (w : list error),
     handlePanic (Some []) (Some v) w = (w, None))
  ∧ let s := {| MilterFactory := Made (F := list call) [] OptNone 0;
                ErrHandlers := Some ([] : list (handler (W := list error)));
                Logger := [] |} in
    let c := conn (packet "H" (bs "mx" ++ [x00])) in
    snd <$> handleCon (RT := example_runtime) (FI := helo_panics) s c 0
    = Some (Some (PanicValue (bs "boom")))
    ∧ (λ '(_, w, e), (w, e))
        <$> connection_goroutine (RT := example_runtime) (FI := helo_panics) s c 0 []
      = Some ([], Returned).
Proof.
  split; [reflexivity|]. split; vm_compute; reflexivity.
Qed.

Lemma C10_define_macros_odd_count_panics_witness :
  Nat.Odd (length (decodeCStrings (bs "j" ++ [x00])))
  ∧ snd (Process (RT := example_runtime) (FI := always_continue) (fresh 0 [])
           {| Code := "D"; Data := "C"%byte :: (bs "j" ++ [x00]) |})
    = Panics (PanicError IndexOutOfRange).
Proof.
  assert (Hodd : Nat.Odd (length (decodeCStrings (bs "j" ++ [x00]))))
    by (exists 0%nat; reflexivity).
  split; [exact Hodd|].
  apply (C10_define_macros_odd_count_panics (RT := example_runtime)
           (FI := always_continue) (fresh 0 []) "C"%byte (bs "j" ++ [x00]) Hodd).
Defined.

(** * Further properties of the code *)

(** ** Reading and writing packets *)

Lemma byte_of_Z_val (b : byte) : byte_of_Z (byte_val b) = b.
Proof.
  unfold byte_of_Z. pose proof (byte_val_range b) as Hr.
  rewrite Z.mod_small by lia. unfold byte_val.
  rewrite N2Z.id, Byte.of_to_N. reflexivity.
Qed.

Lemma byte_of_Z_mod (x y : Z) : x mod 256 = y mod 256 → byte_of_Z x = byte_of_Z y.
Proof. unfold byte_of_Z. intros ->. reflexivity. Qed.

Lemma Uint32_sum (b0 b1 b2 b3 : byte) :
  Uint32 [b0; b1; b2; b3]
  = byte_val b0 * 16777216 + byte_val b1 * 65536 + byte_val b2 * 256 + byte_val b3.
Proof.
  pose proof (byte_val_range b1). pose proof (byte_val_range b2).
  pose proof (byte_val_range b3).
  unfold Uint32.
  rewrite (lor_shiftl_add _ (byte_val b3) 8) by (change (2 ^ 8) with 256; lia).
  rewrite (lor_shiftl_add _ _ 16)
    by (change (2 ^ 8) with 256; change (2 ^ 16) with 65536; lia).
  rewrite (lor_shiftl_add _ _ 24)
    by (change (2 ^ 8) with 256; change (2 ^ 16) with 65536;
        change (2 ^ 24) with 16777216; lia).
  change (2 ^ 8) with 256. change (2 ^ 16) with 65536.
  change (2 ^ 24) with 16777216. lia.
Qed.

Lemma Uint32_range (hdr : list byte) : 0 ≤ Uint32 hdr < 2 ^ 32.
Proof.
  change (2 ^ 32) with 4294967296.
  destruct hdr as [|b0 [|b1 [|b2 [|b3 [|]]]]]; try (cbn; lia).
  rewrite Uint32_sum.
  pose proof (byte_val_range b0). pose proof (byte_val_range b1).
  pose proof (byte_val_range b2). pose proof (byte_val_range b3). lia.
Qed.

(** Encoding the value of four bytes gives the four bytes back. *)
Lemma PutUint32_Uint32 (hdr : list byte) :
  length hdr = 4%nat → PutUint32 (Uint32 hdr) = hdr.
Proof.
  destruct hdr as [|b0 [|b1 [|b2 [|b3 [|]]]]]; try discriminate. intros _.
  rewrite Uint32_sum. unfold PutUint32.
  pose proof (byte_val_range b0). pose proof (byte_val_range b1).
  pose proof (byte_val_range b2). pose proof (byte_val_range b3).
  rewrite !Z.shiftr_div_pow2 by lia.
  change (2 ^ 8) with 256. change (2 ^ 16) with 65536.
  change (2 ^ 24) with 16777216.
  set (v := byte_val b0 * 16777216 + byte_val b1 * 65536
            + byte_val b2 * 256 + byte_val b3).
  assert (E0 : byte_of_Z (v / 16777216) = b0).
  { rewrite <- (byte_of_Z_val b0). apply byte_of_Z_mod. subst v.
    Z.div_mod_to_equations. lia. }
  assert (E1 : byte_of_Z (v / 65536) = b1).
  { rewrite <- (byte_of_Z_val b1). apply byte_of_Z_mod. subst v.
    Z.div_mod_to_equations. lia. }
  assert (E2 : byte_of_Z (v / 256) = b2).
  { rewrite <- (byte_of_Z_val b2). apply byte_of_Z_mod. subst v.
    Z.div_mod_to_equations. lia. }
  assert (E3 : byte_of_Z v = b3).
  { rewrite <- (byte_of_Z_val b3). apply byte_of_Z_mod. subst v.
    Z.div_mod_to_equations. lia. }
  rewrite E0, E1, E2, E3. reflexivity.
Qed.

Section CodecMore.
Context {F : Type}.
Implicit Types (m r w : milterSession F) (msg : Message).

Lemma ReadFull_Ret (n : nat) (s s' : Sock) (d : list byte) :
  ReadFull n s = (s', Ret d) →
  rd s = d ++ rd s' ∧ length d = n ∧ s' = set_rd s (rd s').
Proof.
  unfold ReadFull. destruct n as [|n'].
  - intros [= <- <-]. destruct s; done.
  - destruct (rd s) as [|b l] eqn:E; [discriminate|]. rewrite <- E.
    case_decide; [|discriminate]. intros [= <- <-].
    cbn [rd set_rd]. rewrite take_drop, length_take. split; [done|].
    split; [lia|]. unfold set_rd. reflexivity.
Qed.

(** X1: whenever ReadPacket yields a message, the bytes it took off the
    stream are exactly the wire form WritePacket gives that message (so
    the length prefix was at least 1 and counted the code byte and the
    payload), and nothing else of the session changed. *)
Theorem ReadPacket_takes_exactly_one_packet m m' msg :
  ReadPacket m = (m', Ret msg) →
  rd (sock m) = packet_bytes msg ++ rd (sock m')
  ∧ m' = feed m (rd (sock m'))
  ∧ fits_prefix msg.
Proof.
  unfold ReadPacket.
  destruct (ReadFull 4 (sock m)) as [s1 [hdr|e|p]] eqn:E1; try discriminate.
  destruct (ReadFull _ s1) as [s2 [[|c d]|e|p]] eqn:E2; try discriminate.
  intros [= <- <-]. cbn [sock set_sock].
  apply ReadFull_Ret in E1 as (R1 & L1 & S1), E2 as (R2 & L2 & S2).
  pose proof (Uint32_range hdr) as Hr. cbn [length] in L2.
  assert (Hlen : Z.of_nat (length d) + 1 = Uint32 hdr) by lia.
  split; [|split].
  - unfold packet_bytes. cbn [Data Code]. unfold wrap32.
    rewrite Hlen, Z.mod_small, PutUint32_Uint32 by done.
    rewrite R1, R2, <- app_assoc. reflexivity.
  - unfold feed. rewrite S2, S1. cbn [set_rd rd wr wfail closed]. reflexivity.
  - unfold fits_prefix. cbn [Data]. lia.
Qed.

End CodecMore.

Section LoopMore.
Context {F : Type} {RT : GoRuntime} {FI : Milter F}.
Implicit Types (m r w : milterSession F) (msg : Message).

Lemma feed_feed m (a b : list byte) : feed (feed m a) b = feed m b.
Proof. reflexivity. Qed.

(** X2: a stream that ends inside a packet ends the session without a
    fault.  When it ends inside the length prefix or inside the packet
    body, io.ErrUnexpectedEOF is logged as a read error; when it ends at a
    packet boundary, or right after a length prefix that announces at least
    one byte, the reader gets io.EOF and nothing is logged.  In each case
    nothing is written and no command is processed. *)
Theorem truncated_stream_ends_session (fuel : nat) m (pre hdr body : list byte) :
  (length pre < 4)%nat →
  length hdr = 4%nat →
  (length body < Z.to_nat (Uint32 hdr))%nat →
  serve (S fuel) (feed m pre)
  = Some (match pre with
          | [] => feed m []
          | _ :: _ => Printf (feed m []) (LogReadError ErrUnexpectedEOF)
          end, None)
  ∧ serve (S fuel) (feed m (hdr ++ body))
    = Some (match body with
            | [] => feed m []
            | _ :: _ => Printf (feed m []) (LogReadError ErrUnexpectedEOF)
            end, None).
Proof.
  intros Hpre Hhdr Hbody. split.
  - cbn [serve]. unfold ReadPacket, ReadFull. cbn [feed sock set_sock rd set_rd].
    destruct pre as [|b pre']; [reflexivity|].
    rewrite decide_False by lia. reflexivity.
  - cbn [serve]. unfold ReadPacket. cbn [feed sock set_sock].
    rewrite (ReadFull_exact 4) by first [done | discriminate].
    unfold ReadFull. destruct (Z.to_nat (Uint32 hdr)) as [|n] eqn:En; [lia|].
    cbn [rd set_rd]. destruct body as [|b body']; [reflexivity|].
    rewrite decide_False by lia. reflexivity.
Qed.

Lemma write_packets_ok (msgs : list Message) w :
  wfail (sock w) = false →
  write_packets msgs w
  = (set_sock w (set_wr (sock w)
                   (wr (sock w) ++ concat (map packet_bytes msgs))), None).
Proof.
  revert w. induction msgs as [|msg msgs IH]; intros w Hw.
  - cbn [write_packets map concat]. rewrite app_nil_r.
    destruct w as [? ? [] ? ? ? ? ? ? ?]; reflexivity.
  - cbn [write_packets]. unfold WritePacket. rewrite Hw.
    rewrite IH by exact Hw. cbn [sock set_sock wr set_wr map concat].
    rewrite <- app_assoc. reflexivity.
Qed.

Lemma read_packets_concat (msgs : list Message) r (rest : list byte) :
  Forall fits_prefix msgs →
  read_packets (length msgs) (feed r (concat (map packet_bytes msgs) ++ rest))
  = (feed r rest, msgs).
Proof.
  induction 1 as [|msg msgs Hfit _ IH]; [reflexivity|].
  cbn [length read_packets map concat]. rewrite <- app_assoc.
  rewrite ReadPacket_packet_bytes by exact Hfit.
  rewrite IH. reflexivity.
Qed.

(** X3: packets do not run into each other.  Messages that each fit the
    length prefix, written one after the other on a connection whose
    writes succeed, are all written, and reading the written bytes packet
    by packet yields the same messages in the same order and stops exactly
    where the last one ends. *)
Theorem packets_written_in_a_row_read_back (msgs : list Message) w r (rest : list byte) :
  Forall fits_prefix msgs →
  wfail (sock w) = false →
  snd (write_packets msgs w) = None
  ∧ read_packets (length msgs)
      (feed r (sent w (fst (write_packets msgs w)) ++ rest))
    = (feed r rest, msgs).
Proof.
  intros Hfit Hw. rewrite write_packets_ok by exact Hw. split; [reflexivity|].
  unfold sent. cbn [fst sock set_sock wr set_wr]. rewrite drop_app_length.
  apply read_packets_concat, Hfit.
Qed.

Lemma ReadFull_io (n : nat) (s : Sock) :
  (∃ taken, rd s = taken ++ rd (fst (ReadFull n s)))
  ∧ closed (fst (ReadFull n s)) = closed s.
Proof.
  unfold ReadFull. destruct n; [split; [by exists []|done]|].
  destruct (rd s) as [|b l] eqn:E; [split; [by exists []|done]|]. rewrite <- E.
  case_decide; cbn [fst rd set_rd closed]; (split; [|done]).
  - exists (take (S n) (rd s)). symmetry. apply take_drop.
  - exists (rd s). symmetry. apply app_nil_r.
Qed.

Lemma ReadPacket_io m :
  (∃ taken, rd (sock m) = taken ++ rd (sock (fst (ReadPacket m))))
  ∧ closed (sock (fst (ReadPacket m))) = closed (sock m).
Proof.
  unfold ReadPacket.
  pose proof (ReadFull_io 4 (sock m)) as [[t1 R1] C1].
  destruct (ReadFull 4 (sock m)) as [s1 [hdr|e|p]]; cbn [fst] in *;
    [|split; [by exists t1|done]..].
  pose proof (ReadFull_io (Z.to_nat (Uint32 hdr)) s1) as [[t2 R2] C2].
  destruct (ReadFull _ s1) as [s2 [[|c d]|e|p]]; cbn [fst sock set_sock] in *;
    (split; [exists (t1 ++ t2); rewrite <- app_assoc; congruence | congruence]).
Qed.

Lemma modifier_bytes_app (b : bool) (l1 l2 : list Message) :
  modifier_bytes b (l1 ++ l2) = modifier_bytes b l1 ++ modifier_bytes b l2.
Proof.
  unfold modifier_bytes. destruct b; [reflexivity|].
  rewrite map_app, concat_app. reflexivity.
Qed.

(** What the loop does to the connection, whatever the stream and the
    filter: the packets written, by the loop and through the Modifier, are
    whole packets, and none at all when writes fail. *)
Lemma serve_io (fuel : nat) m m' (p : option panicval) :
  serve fuel m = Some (m', p) →
  (∃ pkts : list Message,
     wr (sock m') = wr (sock m) ++ modifier_bytes (wfail (sock m)) pkts)
  ∧ (∃ taken, rd (sock m) = taken ++ rd (sock m'))
  ∧ wfail (sock m') = wfail (sock m)
  ∧ closed (sock m') = closed (sock m).
Proof.
  revert m. induction fuel as [|fuel IH]; intros m; [discriminate|].
  cbn [serve].
  pose proof (ReadPacket_io m) as [[t1 R1] C1].
  pose proof (ReadPacket_keeps m) as [W1 F1].
  assert (Hnil : ∀ b, [] = modifier_bytes b []) by (by intros []).
  destruct (ReadPacket m) as [m1 [msg|e|q]]; cbn [fst] in *.
  - pose proof (Process_sock m1 msg) as (KR & KF & KC & pkts1 & KW).
    rewrite F1, W1 in KW. rewrite <- KR in R1.
    destruct (Process m1 msg) as [m2 [[resp|]|e|q]]; cbn [fst] in *.
    + unfold WritePacket. destruct (wfail (sock m2)) eqn:Hw.
      * intros [= <- <-]. cbn [Printf sock].
        split; [by exists pkts1|]. split; [by exists t1|]. split; congruence.
      * intros Hs. apply IH in Hs as ([pkts2 Hwr] & [t2 R2] & Hf & Hc).
        cbn [sock set_sock wr set_wr rd wfail closed] in *.
        assert (Hm : wfail (sock m) = false) by congruence.
        split.
        { exists (pkts1 ++ Response_Message resp :: pkts2).
          rewrite Hwr, KW, Hw, Hm, modifier_bytes_app.
          unfold modifier_bytes. cbn [map concat].
          rewrite <- !app_assoc. reflexivity. }
        split; [exists (t1 ++ t2); rewrite <- app_assoc; congruence|].
        split; congruence.
    + intros Hs. apply IH in Hs as ([pkts2 Hwr] & [t2 R2] & Hf & Hc).
      split.
      { exists (pkts1 ++ pkts2).
        rewrite Hwr, KW, modifier_bytes_app, <- app_assoc.
        do 3 f_equal. congruence. }
      split; [exists (t1 ++ t2); rewrite <- app_assoc; congruence|].
      split; congruence.
    + intros [= <- <-].
      assert (Hs : sock (match e with
                         | ErrCloseSession => m2
                         | _ => Printf m2 (LogProcessError e)
                         end) = sock m2) by (destruct e; reflexivity).
      rewrite Hs.
      split; [by exists pkts1|]. split; [by exists t1|]. split; congruence.
    + intros [= <- <-].
      split; [by exists pkts1|]. split; [by exists t1|]. split; congruence.
  - intros [= <- <-].
    assert (Hs : sock (match e with
                       | EOF => m1
                       | _ => Printf m1 (LogReadError e)
                       end) = sock m1) by (destruct e; reflexivity).
    rewrite Hs.
    split; [exists []; rewrite <- Hnil, app_nil_r; done|].
    split; [by exists t1|]. split; congruence.
  - intros [= <- <-].
    split; [exists []; rewrite <- Hnil, app_nil_r; done|].
    split; [by exists t1|]. split; congruence.
Qed.

Lemma HandleMilterCommands_io m m' (p : option panicval) :
  HandleMilterCommands m = Some (m', p) →
  (∃ pkts : list Message,
     wr (sock m') = wr (sock m) ++ modifier_bytes (wfail (sock m)) pkts)
  ∧ (∃ taken, rd (sock m) = taken ++ rd (sock m')).
Proof.
  unfold HandleMilterCommands.
  destruct (Init _ _ _) as [f [q|]].
  - unfold deferred. destruct (Disconnect _) as [f' pd]. intros [= <- _].
    cbn. split; [exists []; by destruct (wfail (sock m)); rewrite app_nil_r|].
    by exists [].
  - destruct (serve _ _) as [[m1 p1]|] eqn:Hs; [|discriminate].
    cbn [fmap option_fmap option_map]. unfold deferred.
    destruct (Disconnect _) as [f' pd]. intros [= <- _].
    apply serve_io in Hs as (Hwr & Hrd & _ & _).
    cbn [sock set_sock set_milter set_sessionID wr rd Close closed] in *.
    split; [exact Hwr | exact Hrd].
Qed.

(** X4: whatever arrives on the connection and whatever the filter
    answers, sends through the Modifier or panics with,
    HandleMilterCommands ends, and when it ends the connection is closed
    and the bytes it has not read are a suffix of the input; on a
    connection whose writes succeed, what has been put on the wire is a
    sequence of whole packets after what was there before. *)
Theorem session_ends_closed_with_whole_packets m :
  ∃ (m' : milterSession F) (p : option panicval),
    HandleMilterCommands m = Some (m', p)
    ∧ closed (sock m') = true
    ∧ (∃ taken, rd (sock m) = taken ++ rd (sock m'))
    ∧ (wfail (sock m) = false →
       ∃ pkts : list Message,
         wr (sock m') = wr (sock m) ++ concat (map packet_bytes pkts)).
Proof.
  destruct (HandleMilterCommands_total m) as (m' & p & E & Hc).
  exists m', p. split; [exact E|]. split; [exact Hc|].
  destruct (HandleMilterCommands_io m m' p E) as ([pkts Hwr] & Hrd).
  split; [exact Hrd|]. intros Hw. exists pkts. rewrite Hwr, Hw. reflexivity.
Qed.

End LoopMore.

(** ** The commands one by one *)

Section CommandsMore.
Context {F : Type} {RT : GoRuntime} {FI : Milter F}.
Implicit Types (m : milterSession F) (msg : Message).

(** X5: the reply to 'O' is an 'O' packet of twelve bytes that decode, as
    three big-endian uint32, to the version 2 and the action and protocol
    masks of the session; what the MTA sent in its 'O' packet plays no
    part, the session is left as it was and the filter is not called. *)
Theorem option_negotiation_reply m (payload : list byte) :
  0 ≤ actions m < 2 ^ 32 →
  0 ≤ protocol m < 2 ^ 32 →
  ∃ data : list byte,
    Process m {| Code := "O"; Data := payload |}
    = (m, Ret (Some (NewResponse "O" data)))
    ∧ length data = 12%nat
    ∧ Uint32 (take 4 data) = 2
    ∧ Uint32 (take 4 (drop 4 data)) = actions m
    ∧ Uint32 (drop 8 data) = protocol m.
Proof.
  intros Ha Hp.
  exists (PutUint32 2 ++ PutUint32 (actions m) ++ PutUint32 (protocol m)).
  split; [reflexivity|]. split; [reflexivity|].
  split; [|split].
  - reflexivity.
  - change (take 4 (drop 4 (PutUint32 2 ++ PutUint32 (actions m)
                              ++ PutUint32 (protocol m))))
      with (PutUint32 (actions m)).
    apply Uint32_PutUint32, Ha.
  - change (drop 8 (PutUint32 2 ++ PutUint32 (actions m)
                      ++ PutUint32 (protocol m)))
      with (PutUint32 (protocol m)).
    apply Uint32_PutUint32, Hp.
Qed.

(** Closes a goal with a hypothesis on the membership of a given byte in a
    given list that does not hold. *)
Local Ltac absurd_membership :=
  match goal with
  | H : ?c ∉ ?l |- _ =>
      exfalso; apply H; apply (bool_decide_unpack _); vm_compute; exact I
  | H : ?c ∈ ?l |- _ =>
      exfalso; apply (bool_decide_pack _) in H; vm_compute in H; exact H
  | H : ?c ≠ ?c |- _ => exfalso; apply H; reflexivity
  end.

(** X6: what a command may change in the session.  No command changes the
    negotiated masks or the session ID, reads from the connection, closes
    it or changes whether its writes work; only 'M' changes the mail ID;
    only a code outside the command table writes to the log; and 'D', 'O',
    'Q', 'T' and unknown codes never reach the filter, so that for them
    nothing is put on the wire by Process, the header map stays as it is,
    and so does the macro map except for 'D'. *)
Theorem Process_frame m msg :
  let m' := fst (Process m msg) in
  actions m' = actions m ∧ protocol m' = protocol m
  ∧ sessionID m' = sessionID m
  ∧ rd (sock m') = rd (sock m)
  ∧ wfail (sock m') = wfail (sock m)
  ∧ closed (sock m') = closed (sock m)
  ∧ (Code msg ≠ "M"%byte → mailID m' = mailID m ∧ draws m' = draws m)
  ∧ (Code msg ∈ command_table → logger m' = logger m)
  ∧ (Code msg ∉ ["A"; "B"; "C"; "E"; "H"; "L"; "M"; "N"; "R"]%byte →
     milter m' = milter m ∧ sock m' = sock m ∧ headers m' = headers m
     ∧ (Code msg ≠ "D"%byte → macros m' = macros m)).
Proof.
  intros m'. subst m'. unfold Process. destruct msg as [[] d];
    cbv beta iota zeta; cbn [Code Data];
    repeat case_match; unfold callback; rewrite ?through_modifier_spec;
    cbn [fst];
    repeat split; intros; first [ reflexivity | absurd_membership ].
Qed.

(** X7: an 'L' packet that decodes to a name and a value appends the value
    to the values the header map holds under the canonical form of the
    name, and leaves every other key as it was; the Header callback gets
    the name and the value as sent, and the header map it is handed
    already holds the new value. *)
Theorem header_packet_accumulates m (payload name value : list byte) :
  decodeCStrings payload = [name; value] →
  let r := Process m {| Code := "L"; Data := payload |} in
  let k := CanonicalMIMEHeaderKey name in
  let old : MIMEHeader := default ∅ (headers m) in
  (headers (fst r) ≫= (.!! k)) = Some (default [] (old !! k) ++ [value])
  ∧ (∀ k', k' ≠ k → (headers (fst r) ≫= (.!! k')) = old !! k')
  ∧ snd r = snd (Header name value
                   {| Macros := macros m; Headers_of := headers (fst r) |}
                   (milter m)).
Proof.
  intros Hd r k old. subst r k old. unfold Process. cbn [Code Data].
  rewrite Hd. unfold callback, MIMEHeader_Add, newModifier.
  destruct (headers m) as [h|] eqn:E;
    cbn [fst snd headers set_headers set_milter macros milter default
         mbind option_bind];
    rewrite ?E; cbn [default id]; rewrite !through_modifier_spec;
    cbn [fst snd headers set_headers set_milter set_sock macros milter default
         mbind option_bind];
    (split; [apply lookup_insert_eq|]);
    (split; [intros k' Hk; apply lookup_insert_ne; congruence | reflexivity]).
Qed.

Lemma store_macros_pairs (ps : list (gostring * gostring)) (mac : MacroMap) :
  store_macros (flat_pairs ps) mac
  = (foldr (λ p, <[fst p := snd p]>) mac (reverse ps), None).
Proof.
  revert mac. induction ps as [|[k v] ps IH]; intros mac; [reflexivity|].
  unfold flat_pairs in *. cbn [map concat app fst snd store_macros].
  rewrite IH, reverse_cons, foldr_app. reflexivity.
Qed.

(** X8: a 'D' packet whose payload, after the stage byte, decodes to
    key/value pairs ends normally without a response, and the macro map
    becomes the map of these pairs in which, for a key sent more than
    once, the last value wins. *)
Theorem define_macros_last_value_wins
    m (stage : byte) (rest : list byte) (ps : list (gostring * gostring)) :
  decodeCStrings rest = flat_pairs ps →
  Process m {| Code := "D"; Data := stage :: rest |}
  = (set_macros m (Some (list_to_map (reverse ps))), Ret None).
Proof.
  intros Hd. rewrite Process_D, Hd, store_macros_pairs. reflexivity.
Qed.

End CommandsMore.

Section ConnectAndAddresses.
Context {F : Type} {RT : GoRuntime} {FI : Milter F}.
Implicit Types (m : milterSession F) (msg : Message).

Lemma readCString_unterminated (data : list byte) :
  x00 ∉ data → readCString data = data.
Proof.
  induction data as [|b data IH]; intros Hn; [reflexivity|].
  cbn [readCString]. rewrite is_nul_false by (intros ->; apply Hn; left).
  f_equal. apply IH. intros Hin. apply Hn. right. exact Hin.
Qed.

Lemma eqb_neq (a b : byte) : a ≠ b → Byte.eqb a b = false.
Proof.
  intros Hab. destruct (Byte.eqb a b) eqn:E; [|reflexivity].
  apply Byte.byte_dec_bl in E. contradiction.
Qed.

Lemma Uint16_value (b0 b1 : byte) (tail : list byte) :
  Uint16 (b0 :: b1 :: tail) = byte_val b0 * 256 + byte_val b1.
Proof.
  unfold Uint16. pose proof (byte_val_range b1).
  rewrite lor_shiftl_add by (change (2 ^ 8) with 256; lia). reflexivity.
Qed.

(** X9: a 'C' packet whose payload holds no NUL at all, or nothing after
    the NUL that ends the host name, faults the session before the filter
    is called: the first on the slice past the host name, the second on
    the family byte. *)
Theorem connect_packet_without_family_faults m (host : list byte) :
  x00 ∉ host →
  Process m {| Code := "C"; Data := host |}
  = (m, Panics (PanicError SliceBoundsOutOfRange))
  ∧ Process m {| Code := "C"; Data := host ++ [x00] |}
    = (m, Panics (PanicError IndexOutOfRange)).
Proof.
  intros Hn. unfold Process. cbn [Code Data]. split.
  - rewrite readCString_unterminated by exact Hn. unfold slice_from.
    rewrite decide_False by lia. reflexivity.
  - rewrite readCString_terminated by exact Hn. unfold slice_from.
    rewrite decide_True by (rewrite length_app; cbn [length]; lia).
    rewrite drop_app_add' by reflexivity. reflexivity.
Qed.

(** X10: how a complete 'C' packet is decoded.  With the family '4' or '6'
    the filter's Connect gets the host name, the label of the family, the
    port as the big-endian value of the two bytes after the family byte
    and the parsed text up to the next NUL.  With any other family byte no
    port is read: the port is 0 and the address starts right after the
    family byte.  Bytes after the NUL of the address are ignored. *)
Theorem connect_packet_decodes m (host addr tail : list byte) (fam b0 b1 : byte) :
  x00 ∉ host →
  x00 ∉ addr →
  (fam ∈ ["4"; "6"]%byte →
   Process m {| Code := "C";
                Data := host ++ x00 :: fam :: b0 :: b1 :: addr ++ x00 :: tail |}
   = callback m (Connect host (family fam) (byte_val b0 * 256 + byte_val b1)
                   (ParseIP addr) (newModifier m) (milter m)))
  ∧ (fam ∉ ["4"; "6"]%byte →
     Process m {| Code := "C"; Data := host ++ x00 :: fam :: addr ++ x00 :: tail |}
     = callback m (Connect host (family fam) 0 (ParseIP addr)
                     (newModifier m) (milter m))).
Proof.
  intros Hh Ha. split; intros Hf; unfold Process; cbn [Code Data];
    rewrite readCString_terminated by exact Hh; unfold slice_from;
    rewrite decide_True by (rewrite length_app; cbn [length]; lia);
    rewrite drop_app_add' by reflexivity; cbn [drop skipn].
  - assert (Hb : Byte.eqb fam "4" || Byte.eqb fam "6" = true).
    { apply elem_of_cons in Hf as [->|Hf]; [reflexivity|].
      apply elem_of_cons in Hf as [->|Hf]; [reflexivity|]. inversion Hf. }
    rewrite Hb. rewrite decide_False by (cbn [length]; lia).
    rewrite Uint16_value. cbn [drop skipn]. rewrite ?drop_0.
    rewrite readCString_terminated by exact Ha. reflexivity.
  - assert (Hb : Byte.eqb fam "4" || Byte.eqb fam "6" = false).
    { rewrite !eqb_neq; [reflexivity|..]; intros ->; apply Hf.
      - right. left.
      - left. }
    rewrite Hb. rewrite readCString_terminated by exact Ha. reflexivity.
Qed.

Lemma TrimLeft_bare (cut a : list byte) :
  Forall (λ b, in_cutset cut b = false) a → TrimLeft cut a = a.
Proof. destruct 1 as [|b a Hb _]; [reflexivity|]. cbn. rewrite Hb. reflexivity. Qed.

(** strings.Trim takes the angle brackets off an address that has none
    inside. *)
Lemma Trim_angle_brackets (a : list byte) :
  Forall (λ b, in_cutset (bs "<>") b = false) a →
  Trim ("<"%byte :: a ++ [">"%byte]) (bs "<>") = a
  ∧ Trim a (bs "<>") = a.
Proof.
  intros Ha. unfold Trim.
  assert (Hr : Forall (λ b, in_cutset (bs "<>") b = false) (reverse a))
    by (apply Forall_reverse; exact Ha).
  split.
  - change (TrimLeft (bs "<>") ("<"%byte :: a ++ [">"%byte]))
      with (TrimLeft (bs "<>") (a ++ [">"%byte])).
    destruct Ha as [|b a Hb Ha]; [reflexivity|].
    cbn [app TrimLeft]. rewrite Hb.
    change (b :: a ++ [">"%byte]) with ((b :: a) ++ [">"%byte]).
    rewrite reverse_app. change (reverse [">"%byte]) with [">"%byte].
    cbn [app]. change (TrimLeft (bs "<>") (">"%byte :: reverse (b :: a)))
      with (TrimLeft (bs "<>") (reverse (b :: a))).
    rewrite TrimLeft_bare by exact Hr. apply reverse_involutive.
  - rewrite (TrimLeft_bare _ a) by exact Ha.
    rewrite TrimLeft_bare by exact Hr. apply reverse_involutive.
Qed.

(** X11: the envelope address of 'M' and 'R'.  For an address without NUL
    and without angle brackets inside, the packet that carries it in angle
    brackets and followed by ESMTP arguments is processed exactly as the
    packet that carries the bare address alone: the brackets and whatever
    follows the first NUL never reach the filter, and RcptTo gets the
    lower-cased bare address. *)
Theorem envelope_address_is_trimmed m (a args : list byte) :
  x00 ∉ a →
  Forall (λ b, in_cutset (bs "<>") b = false) a →
  let wrapped := "<"%byte :: a ++ [">"%byte] ++ x00 :: args in
  Process m {| Code := "M"; Data := wrapped |}
  = Process m {| Code := "M"; Data := a ++ [x00] |}
  ∧ Process m {| Code := "R"; Data := wrapped |}
    = Process m {| Code := "R"; Data := a ++ [x00] |}
  ∧ Process m {| Code := "R"; Data := wrapped |}
    = callback m (RcptTo (ToLower a) (newModifier m) (milter m)).
Proof.
  intros Hn Ha wrapped.
  assert (Hw : readCString wrapped = "<"%byte :: a ++ [">"%byte]).
  { subst wrapped.
    change ("<"%byte :: a ++ [">"%byte] ++ x00 :: args)
      with (("<"%byte :: a) ++ [">"%byte] ++ x00 :: args).
    rewrite app_assoc. change ("<"%byte :: a ++ [">"%byte])
      with (("<"%byte :: a) ++ [">"%byte]).
    apply readCString_terminated. intros Hin.
    apply elem_of_app in Hin as [Hin|Hin].
    - apply elem_of_cons in Hin as [Hin|Hin]; [discriminate | contradiction].
    - apply elem_of_cons in Hin as [Hin|Hin]; [discriminate | inversion Hin]. }
  assert (Hb : readCString (a ++ [x00]) = a)
    by (apply readCString_terminated; exact Hn).
  destruct (Trim_angle_brackets a Ha) as [T1 T2].
  unfold Process. cbn [Code Data]. rewrite Hw, Hb, T1, T2. done.
Qed.

Lemma TrimSuffix_null (name : list byte) : TrimSuffix (name ++ null) null = name.
Proof.
  unfold TrimSuffix, null. rewrite length_app. cbn [length].
  rewrite decide_True by lia.
  replace (length name + 1 - 1)%nat with (length name) by lia.
  rewrite drop_app_length, take_app_length.
  rewrite decide_True by reflexivity. reflexivity.
Qed.

(** X12: the name handed to Helo is the payload without its last byte when
    that byte is NUL, whatever the bytes before it are (a NUL inside the
    name stays, unlike in the other commands, which cut at the first
    NUL); a payload that does not end in NUL is handed over whole. *)
Theorem helo_name_loses_one_trailing_nul m (name payload : list byte) :
  (∀ pre, payload ≠ pre ++ [x00]) →
  Process m {| Code := "H"; Data := name ++ [x00] |}
  = callback m (Helo name (newModifier m) (milter m))
  ∧ Process m {| Code := "H"; Data := payload |}
    = callback m (Helo payload (newModifier m) (milter m)).
Proof.
  intros Hp. unfold Process. cbn [Code Data]. split.
  - change [x00] with null. rewrite TrimSuffix_null. reflexivity.
  - unfold TrimSuffix, null. case_decide; [|reflexivity].
    case_decide as Hd; [|reflexivity]. exfalso.
    set (n := (length payload - length [x00])%nat) in *.
    pose proof (take_drop n payload) as E. rewrite Hd in E.
    apply (Hp (take n payload)). symmetry. exact E.
Qed.

(** X13: 'Q' ends the session loop at once and silently: the packets
    that follow it on the stream are never read, nothing is written,
    nothing is logged and no filter callback is made by the loop. *)
Theorem quit_ends_loop_silently (fuel : nat) m (payload rest : list byte) :
  Z.of_nat (length payload) + 1 < 2 ^ 32 →
  serve (S fuel) (feed m (packet "Q" payload ++ rest)) = Some (feed m rest, None).
Proof.
  intros Hlen. cbn [serve]. unfold packet.
  rewrite ReadPacket_packet_bytes by exact Hlen. reflexivity.
Qed.

End ConnectAndAddresses.

(** ** The calls a filter receives *)

Section Calls.
Context {RT : GoRuntime}.
Variable verdict : list call → call → option Modifier →
                   list Message * outcome (option Response).
Implicit Types (m : milterSession (list call)) (msg : Message).

Local Ltac no_disconnect :=
  let Hin := fresh "Hin" in
  intros Hin;
  repeat (apply elem_of_cons in Hin as [Hin|Hin]; [discriminate|]);
  inversion Hin.

(** A command adds at most two calls to what the filter has received, and
    never Disconnect. *)
Lemma Process_calls m msg :
  ∃ cs, milter (fst (Process (FI := recording verdict) m msg)) = milter m ++ cs
        ∧ CallDisconnect ∉ cs.
Proof.
  unfold Process. destruct msg as [[] d]; cbv beta iota zeta;
    cbn [Code Data]; unfold callback;
    cbn [recording Init Disconnect Connect Helo MailFrom RcptTo Header Headers
         BodyChunk Body fst snd milter set_milter set_headers set_macros
         set_mailID Printf];
    repeat case_match; rewrite ?through_modifier_spec;
    cbn [fst snd milter set_milter set_headers set_macros set_sock
         set_mailID Printf];
    first [ exists []; split; [symmetry; apply app_nil_r | no_disconnect]
          | eexists; split; [reflexivity | no_disconnect]
          | eexists; split; [rewrite <- app_assoc; reflexivity | no_disconnect] ].
Qed.

Lemma ReadPacket_milter m : milter (fst (ReadPacket m)) = milter m.
Proof.
  unfold ReadPacket. destruct (ReadFull 4 (sock m)) as [s1 [hdr|e|p]]; [|done..].
  destruct (ReadFull _ s1) as [s2 [[|c d]|e|p]]; done.
Qed.

Lemma serve_calls (fuel : nat) m m' (p : option panicval) :
  serve (FI := recording verdict) fuel m = Some (m', p) →
  ∃ cs, milter m' = milter m ++ cs ∧ CallDisconnect ∉ cs.
Proof.
  revert m. induction fuel as [|fuel IH]; intros m; [discriminate|].
  cbn [serve].
  pose proof (ReadPacket_milter m) as KR.
  destruct (ReadPacket m) as [m1 [msg|e|q]]; cbn [fst] in KR.
  - destruct (Process_calls m1 msg) as (cs1 & K1 & N1).
    destruct (Process m1 msg) as [m2 [[resp|]|e|q]]; cbn [fst] in K1.
    + unfold WritePacket. destruct (wfail (sock m2)).
      * intros [= <- _]. exists cs1. split; [cbn; congruence | exact N1].
      * intros Hs. apply IH in Hs as (cs2 & K2 & N2).
        cbn [milter set_sock] in K2. exists (cs1 ++ cs2).
        split; [rewrite K2, K1, KR, app_assoc; reflexivity|].
        intros Hin. apply elem_of_app in Hin as [Hin|Hin]; contradiction.
    + intros Hs. apply IH in Hs as (cs2 & K2 & N2). exists (cs1 ++ cs2).
      split; [rewrite K2, K1, KR, app_assoc; reflexivity|].
      intros Hin. apply elem_of_app in Hin as [Hin|Hin]; contradiction.
    + intros [= <- _]. exists cs1. split; [|exact N1].
      destruct e; cbn [milter Printf]; congruence.
    + intros [= <- _]. exists cs1. split; [congruence | exact N1].
  - intros [= <- _]. exists []. split; [|no_disconnect].
    rewrite app_nil_r. destruct e; cbn [milter Printf]; congruence.
  - intros [= <- _]. exists []. split; [|no_disconnect].
    rewrite app_nil_r. congruence.
Qed.

(** X14: for every input and every filter, however its answers depend on
    what it was called with before: HandleMilterCommands first calls Init
    with the new session ID and the mail ID the session had, and the very
    last call it makes is Disconnect, made exactly once, on every way out
    (end of stream, 'Q', an error, a failed write, a panic of any
    callback, of Init included). *)
Theorem init_first_disconnect_once_and_last m :
  ∃ (m' : milterSession (list call)) (p : option panicval) (cs : list call),
    HandleMilterCommands (FI := recording verdict) m = Some (m', p)
    ∧ milter m'
      = milter m ++ CallInit (genRandomID (draws m) 12) (mailID m)
                    :: cs ++ [CallDisconnect]
    ∧ CallDisconnect ∉ cs.
Proof.
  destruct (HandleMilterCommands_total (FI := recording verdict) m)
    as (m' & p & E & _).
  exists m', p. revert E. unfold HandleMilterCommands.
  cbn [recording Init]. cbn [sessionID mailID set_sessionID milter].
  destruct (snd (verdict (milter m) _ None)) as [r|e|q].
  1,2: destruct (serve _ _) as [[m1 p1]|] eqn:Hs; [|discriminate];
       cbn [fmap option_fmap option_map]; unfold deferred;
       cbn [recording Disconnect]; intros [= <- <-];
       apply serve_calls in Hs as (cs & K & N);
       cbn [milter set_milter set_sock set_sessionID] in *;
       exists cs; (split; [reflexivity|]);
       (split; [rewrite K, <- !app_assoc; reflexivity | exact N]).
  unfold deferred. cbn [recording Disconnect]. intros [= <- <-].
  exists []. split; [reflexivity|].
  split; [cbn; rewrite <- app_assoc; reflexivity | no_disconnect].
Qed.

End Calls.

(** ** Session and mail IDs *)

Section IDs.
Context {RT : GoRuntime}.

(** X15: genRandomID gives exactly as many characters as asked for, each
    of them one of the 42 letters of its alphabet, none of which is a
    vowel, whatever the random source yields. *)
Theorem genRandomID_length_and_alphabet (k n : nat) :
  length (genRandomID k n) = n
  ∧ Forall (λ b, b ∈ letters ∧ b ∉ vowels) (genRandomID k n).
Proof.
  unfold genRandomID. split; [rewrite length_map; apply length_seq|].
  apply Forall_map, Forall_forall. intros i _. cbn beta.
  set (j := (Intn (k + i) (length letters) `mod` length letters)%nat).
  assert (Hj : (j < length letters)%nat)
    by (apply Nat.mod_upper_bound; vm_compute; discriminate).
  destruct (lookup_lt_is_Some_2 letters j Hj) as [b Hb]. rewrite Hb. cbn [default].
  assert (Hall : Forall (λ b, b ∉ vowels) letters)
    by (apply (bool_decide_unpack _); vm_compute; exact I).
  split; [eapply list_elem_of_lookup_2; exact Hb|].
  rewrite Forall_forall in Hall. apply Hall.
  eapply list_elem_of_lookup_2; exact Hb.
Qed.

End IDs.

(** ** The accept loop *)

Lemma accept_loop_clean (pre : list accept_result) (post : list accept_result) :
  Forall clean_accept pre →
  accept_loop (pre ++ post)
  = (omap fst pre ++ fst (accept_loop post), snd (accept_loop post)).
Proof.
  induction 1 as [|r pre [c ->] _ IH];
    [cbn [app omap]; by destruct (accept_loop post)|].
  cbn [app accept_loop omap fst]. rewrite IH. reflexivity.
Qed.

(** X16: what RunServer hands out and returns.  Without a listener it
    returns the error "no listen addr specified".  Otherwise every
    connection that Accept yields without an error, up to the first other
    result, is handed to a goroutine, in order, and that first other result
    ends the loop: RunServer returns its error only if it came with a
    connection, and returns nil if Accept yielded no connection, so the
    error of an Accept that failed without a connection is dropped.  No
    later result is looked at. *)
Theorem RunServer_hands_out_and_returns
    (pre post : list accept_result) (r : accept_result) :
  Forall clean_accept pre →
  ¬ clean_accept r →
  RunServer None = ([], Some no_listen_addr)
  ∧ RunServer (Some pre) = (omap fst pre, None)
  ∧ RunServer (Some (pre ++ r :: post))
    = (omap fst pre,
       match r with
       | (Some _, Some e) => Some e
       | _ => None
       end).
Proof.
  intros Hpre Hr. split; [reflexivity|]. unfold RunServer. split.
  - rewrite <- (app_nil_r pre) at 1. rewrite accept_loop_clean by exact Hpre.
    cbn. rewrite app_nil_r. reflexivity.
  - rewrite accept_loop_clean by exact Hpre.
    destruct r as [[c|] [e|]]; cbn; rewrite ?app_nil_r; try reflexivity.
    exfalso. apply Hr. exists c. reflexivity.
Qed.

(** ** The further properties on concrete inputs *)

Lemma ReadPacket_takes_exactly_one_packet_witness :
  let msg := {| Code := "H"; Data := bs "mx" ++ [x00] |} in
  let m := fresh 0 (packet_bytes msg ++ [x07]) in
  let m' := fst (ReadPacket m) in
  rd (sock m) = packet_bytes msg ++ rd (sock m')
  ∧ m' = feed m (rd (sock m'))
  ∧ fits_prefix msg.
Proof.
  intros msg m m'.
  apply (ReadPacket_takes_exactly_one_packet m m' msg). vm_compute. reflexivity.
Defined.

Lemma truncated_stream_ends_session_witness :
  let m := fresh 0 [] in
  serve (RT := example_runtime) (FI := always_continue) 1 (feed m [x00; x00])
  = Some (Printf (feed m []) (LogReadError ErrUnexpectedEOF), None)
  ∧ serve (RT := example_runtime) (FI := always_continue) 1
      (feed m ([x00; x00; x00; x05] ++ ["H"%byte]))
    = Some (Printf (feed m []) (LogReadError ErrUnexpectedEOF), None).
Proof.
  intros m.
  apply (truncated_stream_ends_session (RT := example_runtime)
           (FI := always_continue) 0 m [x00; x00] [x00; x00; x00; x05]
           ["H"%byte]).
  - vm_compute. lia.
  - reflexivity.
  - vm_compute. lia.
Defined.

Lemma packets_written_in_a_row_read_back_witness :
  let msgs := [ {| Code := "c"; Data := [] |};
                {| Code := "O"; Data := bs "abc" |} ] in
  let w := fresh 0 [] in
  snd (write_packets msgs w) = None
  ∧ read_packets 2 (feed (fresh 0 []) (sent w (fst (write_packets msgs w)) ++ [x07]))
    = (feed (fresh 0 []) [x07], msgs).
Proof.
  intros msgs w.
  apply (packets_written_in_a_row_read_back msgs w (fresh 0 []) [x07]).
  - repeat (constructor; [vm_compute; reflexivity|]). constructor.
  - reflexivity.
Defined.

Lemma option_negotiation_reply_witness :
  ∃ data : list byte,
    Process (RT := example_runtime) (FI := always_continue) (fresh OptNoRcptTo [])
      {| Code := "O"; Data := bs "ignored" |}
    = (fresh OptNoRcptTo [], Ret (Some (NewResponse "O" data)))
    ∧ length data = 12%nat
    ∧ Uint32 (take 4 data) = 2
    ∧ Uint32 (take 4 (drop 4 data)) = OptNone
    ∧ Uint32 (drop 8 data) = OptNoRcptTo.
Proof.
  apply (option_negotiation_reply (RT := example_runtime) (FI := always_continue)
           (fresh OptNoRcptTo []) (bs "ignored"));
    change (2 ^ 32) with 4294967296; vm_compute; split; congruence.
Defined.

Lemma header_packet_accumulates_witness :
  let payload := bs "Subject" ++ [x00] ++ bs "hi" ++ [x00] in
  let m := fresh 0 [] in
  let r := Process (RT := example_runtime) (FI := always_continue) m
             {| Code := "L"; Data := payload |} in
  let k := CanonicalMIMEHeaderKey (GoRuntime := example_runtime) (bs "Subject") in
  let old : MIMEHeader := default ∅ (headers m) in
  (headers (fst r) ≫= (.!! k)) = Some (default [] (old !! k) ++ [bs "hi"])
  ∧ (∀ k', k' ≠ k → (headers (fst r) ≫= (.!! k')) = old !! k')
  ∧ snd r = snd (Header (Milter := always_continue) (bs "Subject") (bs "hi")
                   {| Macros := macros m; Headers_of := headers (fst r) |}
                   (milter m)).
Proof.
  intros payload m.
  apply (header_packet_accumulates (RT := example_runtime)
           (FI := always_continue) m payload (bs "Subject") (bs "hi")).
  reflexivity.
Defined.

Lemma define_macros_last_value_wins_witness :
  let rest := bs "j" ++ [x00] ++ bs "1" ++ [x00] ++ bs "j" ++ [x00] ++ bs "2" ++ [x00] in
  let ps := [(bs "j", bs "1"); (bs "j", bs "2")] in
  Process (RT := example_runtime) (FI := always_continue) (fresh 0 [])
    {| Code := "D"; Data := "C"%byte :: rest |}
  = (set_macros (fresh 0 []) (Some (list_to_map (reverse ps))), Ret None).
Proof.
  intros rest ps.
  apply (define_macros_last_value_wins (RT := example_runtime)
           (FI := always_continue) (fresh 0 []) "C"%byte rest ps).
  reflexivity.
Defined.

Lemma connect_packet_without_family_faults_witness :
  Process (RT := example_runtime) (FI := always_continue) (fresh 0 [])
    {| Code := "C"; Data := bs "mx" |}
  = (fresh 0 [], Panics (PanicError SliceBoundsOutOfRange))
  ∧ Process (RT := example_runtime) (FI := always_continue) (fresh 0 [])
      {| Code := "C"; Data := bs "mx" ++ [x00] |}
    = (fresh 0 [], Panics (PanicError IndexOutOfRange)).
Proof.
  apply (connect_packet_without_family_faults (RT := example_runtime)
           (FI := always_continue) (fresh 0 []) (bs "mx")).
  apply (bool_decide_unpack _). vm_compute. exact I.
Defined.

Lemma connect_packet_decodes_witness :
  let m := fresh 0 [] in
  ("4"%byte ∈ ["4"; "6"]%byte →
   Process (RT := example_runtime) (FI := always_continue) m
     {| Code := "C";
        Data := bs "mx" ++ x00 :: "4"%byte :: x00 :: x19
                  :: bs "10.0.0.1" ++ x00 :: [] |}
   = callback m (Connect (Milter := always_continue) (bs "mx") (family "4")
                   (byte_val x00 * 256 + byte_val x19)
                   (ParseIP (GoRuntime := example_runtime) (bs "10.0.0.1"))
                   (newModifier m) (milter m)))
  ∧ ("4"%byte ∉ ["4"; "6"]%byte →
     Process (RT := example_runtime) (FI := always_continue) m
       {| Code := "C"; Data := bs "mx" ++ x00 :: "4"%byte :: bs "10.0.0.1" ++ x00 :: [] |}
     = callback m (Connect (Milter := always_continue) (bs "mx") (family "4") 0
                     (ParseIP (GoRuntime := example_runtime) (bs "10.0.0.1"))
                     (newModifier m) (milter m))).
Proof.
  intros m.
  apply (connect_packet_decodes (RT := example_runtime) (FI := always_continue)
           m (bs "mx") (bs "10.0.0.1") [] "4"%byte x00 x19);
    apply (bool_decide_unpack _); vm_compute; exact I.
Defined.

Lemma envelope_address_is_trimmed_witness :
  let m := fresh 0 [] in
  let a := bs "a@b.c" in
  let wrapped := "<"%byte :: a ++ [">"%byte] ++ x00 :: bs "SIZE=1" ++ [x00] in
  Process (RT := example_runtime) (FI := always_continue) m
    {| Code := "M"; Data := wrapped |}
  = Process (RT := example_runtime) (FI := always_continue) m
      {| Code := "M"; Data := a ++ [x00] |}
  ∧ Process (RT := example_runtime) (FI := always_continue) m
      {| Code := "R"; Data := wrapped |}
    = Process (RT := example_runtime) (FI := always_continue) m
        {| Code := "R"; Data := a ++ [x00] |}
  ∧ Process (RT := example_runtime) (FI := always_continue) m
      {| Code := "R"; Data := wrapped |}
    = callback m (RcptTo (Milter := always_continue)
                    (ToLower (GoRuntime := example_runtime) a)
                    (newModifier m) (milter m)).
Proof.
  intros m a.
  apply (envelope_address_is_trimmed (RT := example_runtime)
           (FI := always_continue) m a (bs "SIZE=1" ++ [x00])).
  - apply (bool_decide_unpack _). vm_compute. exact I.
  - repeat (constructor; [reflexivity|]). constructor.
Defined.

Lemma helo_name_loses_one_trailing_nul_witness :
  let m := fresh 0 [] in
  Process (RT := example_runtime) (FI := always_continue) m
    {| Code := "H"; Data := bs "mx" ++ [x00] |}
  = callback m (Helo (Milter := always_continue) (bs "mx") (newModifier m) (milter m))
  ∧ Process (RT := example_runtime) (FI := always_continue) m
      {| Code := "H"; Data := bs "mx" |}
    = callback m (Helo (Milter := always_continue) (bs "mx") (newModifier m) (milter m)).
Proof.
  intros m.
  apply (helo_name_loses_one_trailing_nul (RT := example_runtime)
           (FI := always_continue) m (bs "mx") (bs "mx")).
  intros pre E. apply (f_equal last) in E. rewrite last_snoc in E.
  vm_compute in E. discriminate E.
Defined.

Lemma quit_ends_loop_silently_witness :
  let m := fresh 0 [] in
  let rest := packet "H" (bs "mx" ++ [x00]) in
  serve (RT := example_runtime) (FI := always_continue) 1
    (feed m (packet "Q" [] ++ rest))
  = Some (feed m rest, None).
Proof.
  intros m rest.
  apply (quit_ends_loop_silently (RT := example_runtime) (FI := always_continue)
           0 m [] rest).
  vm_compute. reflexivity.
Defined.

Lemma RunServer_hands_out_and_returns_witness :
  let c := conn [] in
  RunServer None = ([], Some no_listen_addr)
  ∧ RunServer (Some [(Some c, None)]) = ([c], None)
  ∧ RunServer (Some ([(Some c, None)] ++ (None, Some EOF) :: [(Some c, None)]))
    = ([c], None).
Proof.
  intros c.
  apply (RunServer_hands_out_and_returns [(Some c, None)] [(Some c, None)]
           (None, Some EOF)).
  - constructor; [exists c; reflexivity | constructor].
  - intros [c' E]. discriminate E.
Defined.
